(** * DataSourceCollection: an ordered collection of data sources

    A shallow embedding of [Source/DynamicScene/DataSourceCollection.js]
    and the properties of its public contract.

    Data sources are JavaScript objects owned by the caller; the collection
    keeps references to them in the array [_dataSources] and writes the two
    shadow fields [_dataSourceIndex] and [_show] on them.  The embedding
    therefore has an object store, indexed by reference, next to the array,
    so that one object reachable through two array slots is one object.
    Event dispatch and the data source's own [destroy()] are calls out of
    the collection: they are recorded, in order, in a log, together with the
    array as it stood at the moment of the call.  What the callee does is
    not part of the collection: an event handler is taken not to call back
    into the collection, and [destroy()] not to touch the three fields the
    collection uses. *)

From Stdlib Require Import ZArith String Lia.
From stdpp Require Import base list functions.

Local Open Scope Z_scope.

(** ** Values, objects, effects *)

(** A reference to a data source object. *)
Definition handle := nat.

(** The JavaScript values the collection's methods return or pass to
    event handlers. *)
Inductive value : Type :=
| VUndefined
| VBool (b : bool)
| VNum (n : Z)
| VRef (h : handle).

(** The fields of a data source that the collection reads or writes:
    [show] belongs to the data source, the other two are the collection's
    shadow fields; [None] is JavaScript's [undefined]. *)
Record DataSource : Type := mkDataSource {
  show : bool;
  _show : option bool;
  _dataSourceIndex : option Z
}.

Definition set_dataSourceIndex (i : Z) (o : DataSource) : DataSource :=
  {| show := show o; _show := _show o; _dataSourceIndex := Some i |}.

Definition set_show_shadow (b : bool) (o : DataSource) : DataSource :=
  {| show := show o; _show := Some b; _dataSourceIndex := _dataSourceIndex o |}.

Definition set_show (b : bool) (o : DataSource) : DataSource :=
  {| show := b; _show := _show o; _dataSourceIndex := _dataSourceIndex o |}.

(** The four events of the constructor. *)
Inductive Event : Type :=
| dataSourceAdded
| dataSourceRemoved
| dataSourceMoved
| dataSourceShownOrHidden.

(** A call out of the collection: [ev.raiseEvent(args...)] or
    [dataSource.destroy()]. *)
Inductive Effect : Type :=
| raiseEvent (ev : Event) (args : list value)
| destroyCall (dataSource : handle).

Inductive Error : Type :=
| DeveloperError (message : string)
| TypeError.

(** The collection, the objects it refers to, and the log of its calls
    out; each log entry carries [_dataSources] as it was at the call.
    [destroyed] records that [destroyObject] has been applied. *)
Record State : Type := mkState {
  _dataSources : list handle;
  objects : handle -> DataSource;
  trace : list (Effect * list handle);
  destroyed : bool
}.

(** [new DataSourceCollection()] over a given object store. *)
Definition new_DataSourceCollection (objs : handle -> DataSource) : State :=
  {| _dataSources := []; objects := objs; trace := []; destroyed := false |}.

(** ** Computations: state, and exceptions that keep the state *)

Inductive Completion (A : Type) : Type :=
| Normal (a : A)
| Throw (e : Error).
Arguments Normal {A} a.
Arguments Throw {A} e.

Definition M (A : Type) : Type := State -> Completion A * State.

Definition ret {A} (a : A) : M A := fun s => (Normal a, s).

Definition bind {A B} (m : M A) (k : A -> M B) : M B :=
  fun s => match m s with
           | (Normal a, s') => k a s'
           | (Throw e, s') => (Throw e, s')
           end.

Definition throw {A} (e : Error) : M A := fun s => (Throw e, s).

Declare Scope js_scope.
Delimit Scope js_scope with js.
Notation "x <- m ;; k" := (bind m (fun x => k))
  (at level 100, m at next level, right associativity) : js_scope.
Notation "m ;;; k" := (bind m (fun _ => k))
  (at level 100, right associativity) : js_scope.
Local Open Scope js_scope.

Definition get_dataSources : M (list handle) :=
  fun s => (Normal (_dataSources s), s).

Definition set_dataSources (l : list handle) : M unit :=
  fun s => (Normal tt,
            {| _dataSources := l; objects := objects s;
               trace := trace s; destroyed := destroyed s |}).

Definition get_objects : M (handle -> DataSource) :=
  fun s => (Normal (objects s), s).

Definition set_objects (objs : handle -> DataSource) : M unit :=
  fun s => (Normal tt,
            {| _dataSources := _dataSources s; objects := objs;
               trace := trace s; destroyed := destroyed s |}).

(** A call out of the collection is appended to the log with the array
    as it is now. *)
Definition emit (e : Effect) : M unit :=
  fun s => (Normal tt,
            {| _dataSources := _dataSources s; objects := objects s;
               trace := trace s ++ [(e, _dataSources s)];
               destroyed := destroyed s |}).

Fixpoint for_each {A} (l : list A) (body : A -> M unit) : M unit :=
  match l with
  | [] => ret tt
  | x :: l' => body x ;;; for_each l' body
  end.

(** ** Array primitives *)

(** [Array.prototype.indexOf] with strict equality; [undefined] is never
    an element of [_dataSources]. *)
Fixpoint indexOf_from (l : list handle) (d : handle) (i : Z) : Z :=
  match l with
  | [] => -1
  | x :: l' => if decide (x = d) then i else indexOf_from l' d (i + 1)
  end.

Definition Array_indexOf (l : list handle) (dataSource : option handle) : Z :=
  match dataSource with
  | None => -1
  | Some d => indexOf_from l d 0
  end.

(** [Array.prototype.splice(start, deleteCount, items...)]: a negative
    start counts from the end, and the start is clamped to the array. *)
Definition splice_start (start : Z) (len : nat) : nat :=
  if start <? 0 then Z.to_nat (Z.max (Z.of_nat len + start) 0)
  else Z.to_nat (Z.min start (Z.of_nat len)).

Definition splice (l : list handle) (start : Z) (deleteCount : nat)
    (items : list handle) : list handle :=
  let s := splice_start start (length l) in
  take s l ++ items ++ drop (s + deleteCount) l.

(** [arr[i]]: [None] is [undefined]. *)
Definition Array_get (l : list handle) (i : Z) : option handle :=
  if i <? 0 then None else l !! Z.to_nat i.

(** ** Helpers of the Core directory *)

(** Modelled from the spec: [defaultValue] (Core/defaultValue is not among
    the sources); the spec writes [destroy = true] for the parameter it is
    applied to: the first argument when it is given, else the second. *)
Definition defaultValue {A} (a : option A) (b : A) : A :=
  match a with
  | Some x => x
  | None => b
  end.

(** Modelled from the spec: [CesiumMath.clamp] (Core/Math is not among the
    sources); the spec says index arguments of the swap helper are clamped
    into [[0, length-1]]. *)
Definition clamp (v lo hi : Z) : Z :=
  if v <? lo then lo else if v >? hi then hi else v.

(** Modelled from the spec: [destroyObject] (Core/destroyObject is not
    among the sources); the spec says it marks the registry unusable, so
    that any call other than the is-destroyed check fails afterwards. It
    returns [undefined]. *)
Definition destroyObject : M value :=
  fun s => (Normal VUndefined,
            {| _dataSources := _dataSources s; objects := objects s;
               trace := trace s; destroyed := true |}).

Definition destroyed_message : string :=
  "This object was destroyed, i.e., destroy() was called."%string.

(** ** The re-index and visibility pass: [_update] *)

(** [dataSource.show !== dataSource._show]. *)
Definition show_differs (o : DataSource) : bool :=
  match _show o with
  | None => true
  | Some b => negb (Bool.eqb (show o) b)
  end.

(** [dataSourcesShownOrHidden.push(dataSource)], creating the array when
    it is still [undefined]. *)
Definition push_shown (acc : option (list handle)) (d : handle)
    : option (list handle) :=
  Some (default [] acc ++ [d]).

(** The first loop of [_update], from index [i] on. *)
Fixpoint walk (ds : list handle) (i : Z) (objs : handle -> DataSource)
    (acc : option (list handle))
    : (handle -> DataSource) * option (list handle) :=
  match ds with
  | [] => (objs, acc)
  | d :: ds' =>
    let o := set_dataSourceIndex i (objs d) in
    if show_differs o then
      let acc' := if _show o is Some _ then push_shown acc d else acc in
      walk ds' (i + 1) (<[d := set_show_shadow (show o) o]> objs) acc'
    else
      walk ds' (i + 1) (<[d := o]> objs) acc
  end.

Definition of_index (i : option Z) : value :=
  match i with
  | Some n => VNum n
  | None => VUndefined
  end.

(** The second loop of [_update]: one event per recorded data source,
    reading its index and [show] at this point. *)
Definition notify_shown (d : handle) : M unit :=
  objs <- get_objects ;;
  emit (raiseEvent dataSourceShownOrHidden
          [VRef d; of_index (_dataSourceIndex (objs d)); VBool (show (objs d))]).

Definition _update : M unit :=
  dataSources <- get_dataSources ;;
  objs <- get_objects ;;
  let '(objs', dataSourcesShownOrHidden) := walk dataSources 0 objs None in
  set_objects objs' ;;;
  match dataSourcesShownOrHidden with
  | None => ret tt
  | Some l => for_each l notify_shown
  end.

(** ** The public methods *)

Definition length_of (l : list handle) : Z := Z.of_nat (length l).

(** [DataSourceCollection.prototype.add]; it has no [return]. *)
Definition add (dataSource : option handle) (index : option Z) : M value :=
  match dataSource with
  | None => throw (DeveloperError "dataSource is required.")
  | Some d =>
    index' <-
      (arr <- get_dataSources ;;
       match index with
       | None =>
         set_dataSources (arr ++ [d]) ;;;
         ret (length_of arr)
       | Some i =>
         if i <? 0 then
           throw (DeveloperError "index must be greater than or equal to zero.")
         else if i >? length_of arr then
           throw (DeveloperError
             "index must be less than or equal to the number of data sources.")
         else
           set_dataSources (splice arr i 0 [d]) ;;;
           ret i
       end) ;;
    _update ;;;
    emit (raiseEvent dataSourceAdded [VRef d; VNum index']) ;;;
    ret VUndefined
  end.

(** [DataSourceCollection.prototype.remove]. *)
Definition remove (dataSource : option handle) (destroy : option bool)
    : M value :=
  let destroy := defaultValue destroy true in
  arr <- get_dataSources ;;
  let index := Array_indexOf arr dataSource in
  match dataSource with
  | Some d =>
    if negb (index =? -1) then
      set_dataSources (splice arr index 1 []) ;;;
      _update ;;;
      emit (raiseEvent dataSourceRemoved [VRef d; VNum index]) ;;;
      (if destroy then emit (destroyCall d) else ret tt) ;;;
      ret (VBool true)
    else ret (VBool false)
  | None => ret (VBool false)
  end.

(** The loop of [removeAll], from index [i] on. *)
Fixpoint removeAll_loop (l : list handle) (i : Z) (destroy : bool) : M unit :=
  match l with
  | [] => ret tt
  | d :: l' =>
    emit (raiseEvent dataSourceRemoved [VRef d; VNum i]) ;;;
    (if destroy then emit (destroyCall d) else ret tt) ;;;
    removeAll_loop l' (i + 1) destroy
  end.

(** [DataSourceCollection.prototype.removeAll]. *)
Definition removeAll (destroy : option bool) : M value :=
  let destroy := defaultValue destroy true in
  dataSources <- get_dataSources ;;
  removeAll_loop dataSources 0 destroy ;;;
  set_dataSources [] ;;;
  ret VUndefined.

(** [DataSourceCollection.prototype.indexOf]. *)
Definition indexOf (dataSource : option handle) : M value :=
  arr <- get_dataSources ;;
  ret (VNum (Array_indexOf arr dataSource)).

(** [DataSourceCollection.prototype.contains]. *)
Definition contains (dataSource : option handle) : M value :=
  arr <- get_dataSources ;;
  ret (VBool (negb (Array_indexOf arr dataSource =? -1))).

(** [DataSourceCollection.prototype.get]. *)
Definition get (index : option Z) : M value :=
  match index with
  | None => throw (DeveloperError "index is required.")
  | Some i =>
    arr <- get_dataSources ;;
    ret (match Array_get arr i with
         | Some d => VRef d
         | None => VUndefined
         end)
  end.

(** [DataSourceCollection.prototype.getLength]. *)
Definition getLength : M value :=
  arr <- get_dataSources ;;
  ret (VNum (length_of arr)).

(** [getDataSourceIndex(dataSources, dataSource)]. *)
Definition getDataSourceIndex (dataSources : list handle)
    (dataSource : option handle) : M Z :=
  match dataSource with
  | None => throw (DeveloperError "dataSource is required.")
  | Some d =>
    let index := Array_indexOf dataSources dataSource in
    if index =? -1 then
      throw (DeveloperError "dataSource is not in this collection.")
    else ret index
  end.

(** [swapDataSources(collection, i, j)]. Reading a slot outside the array
    gives [undefined], on which the pass that follows would fail with a
    [TypeError]; that branch is kept as the throw alone, and no call of a
    method takes it ([call_never_TypeError]). *)
Definition swapDataSources (i j : Z) : M unit :=
  arr <- get_dataSources ;;
  let i := clamp i 0 (length_of arr - 1) in
  let j := clamp j 0 (length_of arr - 1) in
  if i =? j then ret tt
  else
    match Array_get arr i, Array_get arr j with
    | Some temp, Some other =>
      set_dataSources (<[Z.to_nat j := temp]> (<[Z.to_nat i := other]> arr)) ;;;
      _update ;;;
      emit (raiseEvent dataSourceMoved [VRef temp; VNum j; VNum i])
    | _, _ => throw TypeError
    end.

(** [DataSourceCollection.prototype.raise]. *)
Definition raise (dataSource : option handle) : M value :=
  arr <- get_dataSources ;;
  index <- getDataSourceIndex arr dataSource ;;
  swapDataSources index (index + 1) ;;;
  ret VUndefined.

(** [DataSourceCollection.prototype.lower]. *)
Definition lower (dataSource : option handle) : M value :=
  arr <- get_dataSources ;;
  index <- getDataSourceIndex arr dataSource ;;
  swapDataSources index (index - 1) ;;;
  ret VUndefined.

(** [DataSourceCollection.prototype.raiseToTop]. Past
    [getDataSourceIndex] the data source is defined. *)
Definition raiseToTop (dataSource : option handle) : M value :=
  arr <- get_dataSources ;;
  index <- getDataSourceIndex arr dataSource ;;
  match dataSource with
  | None => ret VUndefined
  | Some d =>
    if index =? length_of arr - 1 then ret VUndefined
    else
      let arr1 := splice arr index 1 [] in
      let arr2 := arr1 ++ [d] in
      set_dataSources arr2 ;;;
      _update ;;;
      emit (raiseEvent dataSourceMoved
              [VRef d; VNum (length_of arr2 - 1); VNum index]) ;;;
      ret VUndefined
  end.

(** [DataSourceCollection.prototype.lowerToBottom]. *)
Definition lowerToBottom (dataSource : option handle) : M value :=
  arr <- get_dataSources ;;
  index <- getDataSourceIndex arr dataSource ;;
  match dataSource with
  | None => ret VUndefined
  | Some d =>
    if index =? 0 then ret VUndefined
    else
      let arr1 := splice arr index 1 [] in
      let arr2 := splice arr1 0 0 [d] in
      set_dataSources arr2 ;;;
      _update ;;;
      emit (raiseEvent dataSourceMoved [VRef d; VNum 0; VNum index]) ;;;
      ret VUndefined
  end.

(** [DataSourceCollection.prototype.isDestroyed]. *)
Definition isDestroyed : M value := ret (VBool false).

(** [DataSourceCollection.prototype.destroy]. *)
Definition destroy : M value :=
  removeAll (Some true) ;;;
  destroyObject.

(** ** Calls on an instance *)

(** The function-valued properties of a collection, with their
    arguments. *)
Inductive Method : Type :=
| m_add (dataSource : option handle) (index : option Z)
| m_remove (dataSource : option handle) (destroy : option bool)
| m_removeAll (destroy : option bool)
| m_contains (dataSource : option handle)
| m_indexOf (dataSource : option handle)
| m_get (index : option Z)
| m_getLength
| m_raise (dataSource : option handle)
| m_lower (dataSource : option handle)
| m_raiseToTop (dataSource : option handle)
| m_lowerToBottom (dataSource : option handle)
| m_isDestroyed
| m_destroy
| m_update.

(** The method as the prototype defines it. *)
Definition call (m : Method) : M value :=
  match m with
  | m_add d i => add d i
  | m_remove d b => remove d b
  | m_removeAll b => removeAll b
  | m_contains d => contains d
  | m_indexOf d => indexOf d
  | m_get i => get i
  | m_getLength => getLength
  | m_raise d => raise d
  | m_lower d => lower d
  | m_raiseToTop d => raiseToTop d
  | m_lowerToBottom d => lowerToBottom d
  | m_isDestroyed => isDestroyed
  | m_destroy => destroy
  | m_update => _update ;;; ret VUndefined
  end.

(** Modelled from the spec: what a call finds on an instance once
    [destroyObject] (not among the sources) has been applied to it: the
    is-destroyed check answers [true], and any other call fails with the
    destroyed-state error.  Before that, the prototype's method runs. *)
Definition invoke (m : Method) : M value :=
  fun s =>
    if destroyed s then
      match m with
      | m_isDestroyed => (Normal (VBool true), s)
      | _ => (Throw (DeveloperError destroyed_message), s)
      end
    else call m s.

(** The structural mutations of the glossary. *)
Definition mutating (m : Method) : bool :=
  match m with
  | m_add _ _ | m_remove _ _ | m_removeAll _
  | m_raise _ | m_lower _ | m_raiseToTop _ | m_lowerToBottom _ => true
  | _ => false
  end.

(** ** The pass in closed form *)

(** The object store after the pass over [ds], and the data sources the
    pass recorded as shown or hidden. *)
Definition pass_objects (ds : list handle) (objs : handle -> DataSource)
    : handle -> DataSource :=
  (walk ds 0 objs None).1.

Definition pass_shown (ds : list handle) (objs : handle -> DataSource)
    : list handle :=
  default [] (walk ds 0 objs None).2.

(** The log entry of one shown-or-hidden event, raised while the array is
    [ds] and the store is [objs]. *)
Definition shown_entry (ds : list handle) (objs : handle -> DataSource)
    (d : handle) : Effect * list handle :=
  (raiseEvent dataSourceShownOrHidden
     [VRef d; of_index (_dataSourceIndex (objs d)); VBool (show (objs d))],
   ds).

Definition pass_trace (ds : list handle) (objs : handle -> DataSource)
    : list (Effect * list handle) :=
  map (shown_entry ds (pass_objects ds objs)) (pass_shown ds objs).

(** A visibility change that the next pass reports: the shadow is defined
    and differs from [show]. *)
Definition pending (objs : handle -> DataSource) (d : handle) : bool :=
  match _show (objs d) with
  | Some b => negb (Bool.eqb (show (objs d)) b)
  | None => false
  end.

(** The elements of a list at their first occurrence. *)
Fixpoint firsts (l : list handle) : list handle :=
  match l with
  | [] => []
  | x :: l' => x :: filter (fun y => y ≠ x) (firsts l')
  end.

(** Every slot holds an object whose stored index is the slot's. *)
Definition index_consistent (s : State) : Prop :=
  forall (k : nat) (d : handle),
    _dataSources s !! k = Some d ->
    _dataSourceIndex (objects s d) = Some (Z.of_nat k).

(** ** The loop body, and the states the methods leave *)

(** What the loop body leaves in the object it visits at index [i]. *)
Definition visit (i : Z) (o : DataSource) : DataSource :=
  let o := set_dataSourceIndex i o in
  if show_differs o then set_show_shadow (show o) o else o.

(** Appending the recorded data sources to the (possibly still undefined)
    array of the pass. *)
Definition record (acc : option (list handle)) (l : list handle)
    : option (list handle) :=
  match l with
  | [] => acc
  | _ => Some (default [] acc ++ l)
  end.

Definition with_dataSources (l : list handle) (s : State) : State :=
  {| _dataSources := l; objects := objects s;
     trace := trace s; destroyed := destroyed s |}.

Definition logged (e : Effect) (s : State) : State :=
  {| _dataSources := _dataSources s; objects := objects s;
     trace := trace s ++ [(e, _dataSources s)]; destroyed := destroyed s |}.

(** The state the pass leaves. *)
Definition after_pass (s : State) : State :=
  {| _dataSources := _dataSources s;
     objects := pass_objects (_dataSources s) (objects s);
     trace := trace s ++ pass_trace (_dataSources s) (objects s);
     destroyed := destroyed s |}.

Definition maybe_destroyed (destroy : bool) (d : handle) (s : State) : State :=
  if destroy then logged (destroyCall d) s else s.

(** The log entries of [removeAll]: for each data source, in array
    order, its removal event and then, if asked for, its [destroy()];
    the array is still whole at each of them. *)
Definition removed_entries (destroy : bool) (arr : list handle) (i : Z)
    (d : handle) : list (Effect * list handle) :=
  (raiseEvent dataSourceRemoved [VRef d; VNum i], arr)
  :: (if destroy then [(destroyCall d, arr)] else []).

Definition removeAll_trace (destroy : bool) (arr : list handle)
    : list (Effect * list handle) :=
  mjoin (imap (fun k d => removed_entries destroy arr (Z.of_nat k) d) arr).

Definition not_a_member : Error :=
  DeveloperError "dataSource is not in this collection.".

Definition logged_all (es : list Effect) (s : State) : State :=
  foldl (fun s e => logged e s) s es.

(** The owner of a data source sets its [show] flag. *)
Definition flip_show (d : handle) (b : bool) (s : State) : State :=
  {| _dataSources := _dataSources s;
     objects := <[d := set_show b (objects s d)]> (objects s);
     trace := trace s; destroyed := destroyed s |}.

(** What a call added to the log. *)
Definition new_entries (s s' : State) : list (Effect * list handle) :=
  drop (length (trace s)) (trace s').

(** ** A small scene for the examples *)

(** Three fresh data sources: A (shown), B (hidden), C (shown); every other
    reference is a fresh shown data source. *)
Definition A : handle := 0%nat.
Definition B : handle := 1%nat.
Definition C : handle := 2%nat.

Definition fresh_objects : handle -> DataSource :=
  fun h => mkDataSource (negb (Nat.eqb h B)) None None.

Definition empty_collection : State := new_DataSourceCollection fresh_objects.

(** The state after a sequence of calls, whatever each call returns. *)
Definition after (ms : list Method) (s : State) : State :=
  foldl (fun s m => (call m s).2) s ms.

(** The collection [A, B, C], built by three calls of [add]. *)
Definition collection_ABC : State :=
  after [m_add (Some A) None; m_add (Some B) None; m_add (Some C) None]
        empty_collection.

(** The scene of the example: A, B and C were added, then B's [show] was
    set to [true]. *)
Definition collection_ABC_B_shown : State := flip_show B true collection_ABC.

(** ** The notions the properties are stated with *)

(** The index [add] inserts at. *)
Definition insertion_index (index : option Z) (s : State) : Z :=
  match index with
  | Some i => i
  | None => length_of (_dataSources s)
  end.

Definition valid_index (index : option Z) (s : State) : Prop :=
  match index with
  | Some i => 0 <= i <= length_of (_dataSources s)
  | None => True
  end.

(** C1 as the specification states it: a successful [add] returns the index
    at which the data source was inserted. *)
Definition add_returns_index : Prop :=
  forall d index s v s',
    add (Some d) index s = (Normal v, s') ->
    v = VNum (insertion_index index s).

(** C2 as the specification states it: adding a data source that is
    already in a duplicate-free collection leaves the array
    duplicate-free. *)
Definition add_member_keeps_NoDup : Prop :=
  forall s d index r s',
    NoDup (_dataSources s) -> d ∈ _dataSources s ->
    add (Some d) index s = (r, s') ->
    NoDup (_dataSources s').

(** The call adds a data source that is already in the array. *)
Definition adds_member (m : Method) (s : State) : Prop :=
  match m with
  | m_add (Some d) _ => d ∈ _dataSources s
  | _ => False
  end.

(** What can happen to a collection: a method is called on it, or the
    owner of a data source sets its [show] flag. *)
Inductive step : State -> State -> Prop :=
| step_call m s : step s (call m s).2
| step_show d b s : step s (flip_show d b s).

Inductive reachable : State -> Prop :=
| reachable_new objs : reachable (new_DataSourceCollection objs)
| reachable_step s s' : reachable s -> step s s' -> reachable s'.

(** The invariant: a duplicate-free array is index-consistent. *)
Definition consistent_unless_duplicates (s : State) : Prop :=
  NoDup (_dataSources s) -> index_consistent s.

(** C4 as the specification states it: after every successful mutating
    operation each slot holds a data source whose stored index is the
    slot's. *)
Definition mutation_leaves_index_consistent : Prop :=
  forall s m v s',
    reachable s -> mutating m = true ->
    call m s = (Normal v, s') ->
    index_consistent s'.

(** [raise] or [raiseToTop] of the member at the last index, [lower] or
    [lowerToBottom] of the member at index 0. *)
Definition noop_reorder (m : Method) (s : State) : Prop :=
  match m with
  | m_raise (Some d) | m_raiseToTop (Some d) =>
    d ∈ _dataSources s
    /\ Array_indexOf (_dataSources s) (Some d)
       = length_of (_dataSources s) - 1
  | m_lower (Some d) | m_lowerToBottom (Some d) =>
    Array_indexOf (_dataSources s) (Some d) = 0
  | _ => False
  end.

(** ** Reading the log and the object store *)

(** The data sources whose [destroy()] a stretch of the log calls, in
    order. *)
Definition destroy_calls (t : list (Effect * list handle)) : list handle :=
  omap (fun entry =>
          match fst entry with
          | destroyCall d => Some d
          | raiseEvent _ _ => None
          end) t.

(** Every member's shadow [_show] is its [show]: a pass would find
    nothing to record. *)
Definition settled (s : State) : Prop :=
  forall d, d ∈ _dataSources s ->
            _show (objects s d) = Some (show (objects s d)).

(** The four methods that move a data source. *)
Definition is_reorder (m : Method) : bool :=
  match m with
  | m_raise _ | m_lower _ | m_raiseToTop _ | m_lowerToBottom _ => true
  | _ => false
  end.

(** The collection [A, C, B]. *)
Definition collection_ACB : State :=
  after [m_add (Some A) None; m_add (Some C) None; m_add (Some B) None]
        empty_collection.

(** ** A data source held in two slots *)

(** The collection [A, B, A], built by three calls of [add]: A is in the
    bottom slot and in the top slot. *)
Definition collection_ABA : State :=
  after [m_add (Some A) None; m_add (Some B) None; m_add (Some A) None]
        empty_collection.

(** [A, B, A] after B's [show] was set to [true]. *)
Definition collection_ABA_B_shown : State := flip_show B true collection_ABA.

(** C7 as the specification states it, in its first part: [raise] of the
    data source in the top slot changes nothing. *)
Definition raise_of_topmost_is_noop : Prop :=
  forall s d,
    reachable s -> list.last (_dataSources s) = Some d ->
    raise (Some d) s = (Normal VUndefined, s).

(** [raise] or [raiseToTop] of the data source in the top slot, [lower] or
    [lowerToBottom] of the data source in the bottom slot. *)
Definition at_boundary (m : Method) (s : State) : Prop :=
  match m with
  | m_raise (Some d) | m_raiseToTop (Some d) =>
    list.last (_dataSources s) = Some d
  | m_lower (Some d) | m_lowerToBottom (Some d) =>
    head (_dataSources s) = Some d
  | _ => False
  end.

(** C10 as the specification states it, in its first part: while a
    member's visibility change is pending, a reorder call on the data
    source in the top or bottom slot returns with the state as it was. *)
Definition boundary_reorder_changes_nothing : Prop :=
  forall m s g,
    reachable s -> at_boundary m s ->
    g ∈ _dataSources s -> Is_true (pending (objects s) g) ->
    call m s = (Normal VUndefined, s).

(** * Properties *)

(** ** Facts about the first loop of the pass *)

Lemma walk_step d ds i objs acc :
  walk (d :: ds) i objs acc =
  walk ds (i + 1) (<[d := visit i (objs d)]> objs)
       (if pending objs d then push_shown acc d else acc).
Proof.
  simpl. unfold visit, pending, show_differs. simpl.
  destruct (_show (objs d)) as [b|]; simpl; [|done].
  destruct (Bool.eqb (show (objs d)) b); done.
Qed.

Lemma visit_show i o : show (visit i o) = show o.
Proof. unfold visit. destruct show_differs; done. Qed.

Lemma visit_index i o : _dataSourceIndex (visit i o) = Some i.
Proof. unfold visit. destruct show_differs; done. Qed.

Lemma visit_shadow i o : _show (visit i o) = Some (show o).
Proof.
  unfold visit, show_differs. simpl.
  destruct (_show o) as [b|] eqn:E; simpl; [|done].
  destruct (Bool.eqb (show o) b) eqn:Eb; simpl; [|done].
  apply Bool.eqb_prop in Eb. by rewrite E, Eb.
Qed.

Lemma walk_show ds : forall i objs acc h,
  show ((walk ds i objs acc).1 h) = show (objs h).
Proof.
  induction ds as [|d ds IH]; intros i objs acc h; [done|].
  rewrite walk_step, IH. unfold insert, fn_insert.
  destruct (decide (d = h)) as [->|]; [apply visit_show|done].
Qed.

Lemma walk_notin ds : forall i objs acc h,
  h ∉ ds -> (walk ds i objs acc).1 h = objs h.
Proof.
  induction ds as [|d ds IH]; intros i objs acc h Hh; [done|].
  rewrite walk_step. apply not_elem_of_cons in Hh as [Hd Hds].
  rewrite IH by done. by rewrite fn_lookup_insert_ne.
Qed.

Lemma walk_index ds : forall i objs acc (k : nat) h,
  NoDup ds -> ds !! k = Some h ->
  _dataSourceIndex ((walk ds i objs acc).1 h) = Some (i + Z.of_nat k).
Proof.
  induction ds as [|d ds IH]; intros i objs acc k h Hnd Hk; [done|].
  rewrite walk_step. apply list.NoDup_cons in Hnd as [Hd Hnd].
  destruct k as [|k]; simpl in Hk.
  - injection Hk as ->. rewrite walk_notin by done.
    rewrite fn_lookup_insert, visit_index. f_equal. lia.
  - rewrite (IH _ _ _ k) by done. f_equal. lia.
Qed.

Lemma walk_shadow ds : forall i objs acc h,
  h ∈ ds -> _show ((walk ds i objs acc).1 h) = Some (show (objs h)).
Proof.
  induction ds as [|d ds IH]; intros i objs acc h Hh.
  - by apply elem_of_nil in Hh.
  - rewrite walk_step. destruct (decide (h ∈ ds)) as [Hin|Hnin].
    + rewrite IH by done. unfold insert, fn_insert.
      destruct (decide (d = h)) as [->|]; [by rewrite visit_show|done].
    + apply elem_of_cons in Hh as [->|Hh]; [|done].
      rewrite walk_notin by done.
      by rewrite fn_lookup_insert, visit_shadow.
Qed.

Lemma record_record acc l1 l2 :
  record (record acc l1) l2 = record acc (l1 ++ l2).
Proof.
  destruct l1 as [|x l1]; [done|]. destruct l2 as [|y l2]; simpl.
  - by rewrite app_nil_r.
  - by rewrite <- app_assoc.
Qed.

Lemma pending_after_visit (objs : handle -> DataSource) d i y :
  Is_true (pending (<[d := visit i (objs d)]> objs) y)
  <-> Is_true (pending objs y) /\ y ≠ d.
Proof.
  unfold pending, insert, fn_insert.
  destruct (decide (d = y)) as [->|Hne].
  - rewrite visit_shadow, visit_show, Bool.eqb_reflx. simpl. tauto.
  - split; [intros H; split; [done|congruence]|tauto].
Qed.

Lemma walk_recorded ds : forall i objs acc,
  (walk ds i objs acc).2
  = record acc (filter (fun d => Is_true (pending objs d)) (firsts ds)).
Proof.
  induction ds as [|d ds IH]; intros i objs acc; [done|].
  rewrite walk_step, IH. simpl firsts.
  rewrite (list_filter_iff _ (fun y => Is_true (pending objs y) /\ y ≠ d))
    by apply pending_after_visit.
  rewrite <- list_filter_filter, filter_cons.
  destruct (pending objs d) eqn:E.
  - rewrite decide_True by done.
    change (push_shown acc d) with (record acc [d]).
    by rewrite record_record.
  - rewrite decide_False by (by intros []). done.
Qed.

(** The pass reports exactly the pending data sources, each once, in the
    order of their first slot. *)
Lemma pass_shown_spec ds objs :
  pass_shown ds objs = filter (fun d => Is_true (pending objs d)) (firsts ds).
Proof.
  unfold pass_shown. rewrite walk_recorded.
  by destruct (filter _ _).
Qed.

Lemma filter_ne_notin (x : handle) (l : list handle) :
  x ∉ l -> filter (fun y => y ≠ x) l = l.
Proof.
  induction l as [|y l IH]; intros Hx; [done|].
  apply not_elem_of_cons in Hx as [Hxy Hx].
  rewrite filter_cons, decide_True by done. by rewrite IH.
Qed.

Lemma firsts_NoDup_id l : NoDup l -> firsts l = l.
Proof.
  induction 1 as [|x l Hx Hl IH]; [done|]. simpl. rewrite IH.
  by rewrite filter_ne_notin.
Qed.

(** ** The pass and the methods as state transformers *)

Lemma for_each_notify_shown l : forall s,
  for_each l notify_shown s =
  (Normal tt,
   {| _dataSources := _dataSources s; objects := objects s;
      trace := trace s ++ map (shown_entry (_dataSources s) (objects s)) l;
      destroyed := destroyed s |}).
Proof.
  induction l as [|d l IH]; intros s; simpl.
  - unfold ret. rewrite app_nil_r. by destruct s.
  - unfold bind, notify_shown, get_objects, emit. simpl. rewrite IH. simpl.
    by rewrite <- app_assoc.
Qed.

Lemma _update_spec s : _update s = (Normal tt, after_pass s).
Proof.
  unfold _update, bind, get_dataSources, get_objects, after_pass, pass_trace,
    pass_objects, pass_shown.
  destruct (walk (_dataSources s) 0 (objects s) None) as [objs' [l|]] eqn:E;
    simpl.
  - by rewrite for_each_notify_shown.
  - unfold ret. by rewrite app_nil_r.
Qed.

Lemma add_missing index s :
  add None index s = (Throw (DeveloperError "dataSource is required."), s).
Proof. done. Qed.

Lemma add_append d s :
  add (Some d) None s =
  (Normal VUndefined,
   logged (raiseEvent dataSourceAdded
             [VRef d; VNum (length_of (_dataSources s))])
          (after_pass (with_dataSources (_dataSources s ++ [d]) s))).
Proof.
  unfold add, bind, get_dataSources, set_dataSources. simpl.
  by rewrite _update_spec.
Qed.

Lemma add_at d i s :
  0 <= i <= length_of (_dataSources s) ->
  add (Some d) (Some i) s =
  (Normal VUndefined,
   logged (raiseEvent dataSourceAdded [VRef d; VNum i])
          (after_pass (with_dataSources (splice (_dataSources s) i 0 [d]) s))).
Proof.
  intros Hi. unfold add, bind, get_dataSources, set_dataSources. simpl.
  destruct (Z.ltb_spec i 0); [lia|].
  destruct (Z.gtb_spec i (length_of (_dataSources s))); [lia|].
  simpl. by rewrite _update_spec.
Qed.

Lemma add_below d i s :
  i < 0 ->
  add (Some d) (Some i) s =
  (Throw (DeveloperError "index must be greater than or equal to zero."), s).
Proof.
  intros Hi. unfold add, bind, get_dataSources. simpl.
  by destruct (Z.ltb_spec i 0); [|lia].
Qed.

Lemma add_above d i s :
  length_of (_dataSources s) < i ->
  add (Some d) (Some i) s =
  (Throw (DeveloperError
     "index must be less than or equal to the number of data sources."), s).
Proof.
  intros Hi. unfold add, bind, get_dataSources. simpl.
  pose proof (Nat2Z.is_nonneg (length (_dataSources s))).
  unfold length_of in *.
  destruct (Z.ltb_spec i 0); [lia|].
  by destruct (Z.gtb_spec i (Z.of_nat (length (_dataSources s)))); [|lia].
Qed.

(** ** Facts about the array primitives *)

Lemma indexOf_from_notin l d : forall i, d ∉ l -> indexOf_from l d i = -1.
Proof.
  induction l as [|x l IH]; intros i Hd; [done|].
  apply not_elem_of_cons in Hd as [Hne Hd]. simpl.
  rewrite decide_False by done. by apply IH.
Qed.

Lemma indexOf_from_in l d : forall i,
  d ∈ l ->
  exists k : nat,
    indexOf_from l d i = i + Z.of_nat k /\ l !! k = Some d /\ d ∉ take k l.
Proof.
  induction l as [|x l IH]; intros i Hd.
  - by apply elem_of_nil in Hd.
  - simpl. destruct (decide (x = d)) as [->|Hne].
    + exists 0%nat. split; [lia|]. split; [done|]. simpl. apply not_elem_of_nil.
    + apply elem_of_cons in Hd as [->|Hd]; [done|].
      destruct (IH (i + 1) Hd) as (k & Hk & Hl & Hn).
      exists (S k). split; [lia|]. split; [done|]. simpl.
      apply not_elem_of_cons. split; [congruence|done].
Qed.

Lemma indexOf_from_member l d i :
  0 <= i -> indexOf_from l d i ≠ -1 -> d ∈ l.
Proof.
  intros Hi Hne. destruct (decide (d ∈ l)) as [|Hn]; [done|].
  by rewrite indexOf_from_notin in Hne.
Qed.

Lemma Array_indexOf_member l d :
  d ∈ l ->
  exists k : nat,
    Array_indexOf l (Some d) = Z.of_nat k /\ l !! k = Some d /\ d ∉ take k l.
Proof.
  intros Hd. destruct (indexOf_from_in l d 0 Hd) as (k & Hk & Hl & Hn).
  exists k. by rewrite <- (Z.add_0_l (Z.of_nat k)).
Qed.

Lemma Array_indexOf_lookup l d (k : nat) :
  Array_indexOf l (Some d) = Z.of_nat k -> l !! k = Some d.
Proof.
  intros Hk. assert (d ∈ l) as Hd.
  { apply (indexOf_from_member l d 0); [lia|]. unfold Array_indexOf in Hk. lia. }
  destruct (Array_indexOf_member l d Hd) as (k' & Hk' & Hl & _).
  assert (k = k') as -> by lia. done.
Qed.

Lemma Array_indexOf_range l d :
  Array_indexOf l (Some d) = -1
  \/ 0 <= Array_indexOf l (Some d) < length_of l.
Proof.
  destruct (decide (d ∈ l)) as [Hd|Hd].
  - right. destruct (Array_indexOf_member l d Hd) as (k & -> & Hl & _).
    apply lookup_lt_Some in Hl. unfold length_of. lia.
  - left. by apply indexOf_from_notin.
Qed.

Lemma Array_indexOf_NoDup l d (k : nat) :
  NoDup l -> l !! k = Some d -> Array_indexOf l (Some d) = Z.of_nat k.
Proof.
  intros Hnd Hk.
  assert (d ∈ l) as Hd by (apply list_elem_of_lookup; eauto).
  destruct (Array_indexOf_member l d Hd) as (k' & -> & Hl & _).
  f_equal. by apply (NoDup_lookup l k' k d).
Qed.

Lemma splice_delete l (k : nat) :
  splice l (Z.of_nat k) 1 [] = delete k l.
Proof.
  unfold splice, splice_start.
  destruct (Z.ltb_spec (Z.of_nat k) 0); [lia|]. simpl.
  destruct (decide (k <= length l)%nat).
  - replace (Z.to_nat (Z.min (Z.of_nat k) (Z.of_nat (length l)))) with k by lia.
    rewrite delete_take_drop. f_equal. f_equal. lia.
  - replace (Z.to_nat (Z.min (Z.of_nat k) (Z.of_nat (length l))))
      with (length l) by lia.
    rewrite delete_take_drop, !take_ge, !drop_ge by lia. done.
Qed.

Lemma splice_insert l (k : nat) d :
  (k <= length l)%nat ->
  splice l (Z.of_nat k) 0 [d] = take k l ++ d :: drop k l.
Proof.
  intros Hk. unfold splice, splice_start.
  destruct (Z.ltb_spec (Z.of_nat k) 0); [lia|]. simpl.
  replace (Z.to_nat (Z.min (Z.of_nat k) (Z.of_nat (length l)))) with k by lia.
  by rewrite Nat.add_0_r.
Qed.

Lemma clamp_in_range v hi : 0 <= v <= hi -> clamp v 0 hi = v.
Proof.
  intros Hv. unfold clamp.
  destruct (Z.ltb_spec v 0); [lia|]. by destruct (Z.gtb_spec v hi); [lia|].
Qed.

Lemma clamp_above v hi : 0 <= hi < v -> clamp v 0 hi = hi.
Proof.
  intros Hv. unfold clamp.
  destruct (Z.ltb_spec v 0); [lia|]. by destruct (Z.gtb_spec v hi); [|lia].
Qed.

Lemma clamp_below v hi : v < 0 -> clamp v 0 hi = 0.
Proof. intros Hv. unfold clamp. by destruct (Z.ltb_spec v 0); [|lia]. Qed.

Lemma Array_get_nat l (k : nat) : Array_get l (Z.of_nat k) = l !! k.
Proof.
  unfold Array_get. destruct (Z.ltb_spec (Z.of_nat k) 0); [lia|].
  by rewrite Nat2Z.id.
Qed.

(** ** The remaining methods as state transformers *)

Lemma remove_absent dataSource destroy s :
  Array_indexOf (_dataSources s) dataSource = -1 ->
  remove dataSource destroy s = (Normal (VBool false), s).
Proof.
  intros Hi. unfold remove, bind, get_dataSources. cbv beta iota zeta.
  destruct dataSource as [d|]; [|done]. by rewrite Hi.
Qed.

Lemma remove_member d destroy s (k : nat) :
  Array_indexOf (_dataSources s) (Some d) = Z.of_nat k ->
  remove (Some d) destroy s =
  (Normal (VBool true),
   maybe_destroyed (defaultValue destroy true) d
     (logged (raiseEvent dataSourceRemoved [VRef d; VNum (Z.of_nat k)])
        (after_pass (with_dataSources (delete k (_dataSources s)) s)))).
Proof.
  intros Hi. unfold remove, bind, get_dataSources, set_dataSources.
  cbv beta iota zeta.
  rewrite Hi. destruct (Z.eqb_spec (Z.of_nat k) (-1)); [lia|].
  cbn [negb]. cbv beta iota zeta. rewrite splice_delete.
  change {| _dataSources := delete k (_dataSources s); objects := objects s;
            trace := trace s; destroyed := destroyed s |}
    with (with_dataSources (delete k (_dataSources s)) s).
  rewrite _update_spec. by destruct (defaultValue destroy true).
Qed.

Lemma mjoin_imap_offset {B} (F : Z -> handle -> list B) d l i :
  mjoin (imap (fun k x => F (i + Z.of_nat k) x) (d :: l))
  = F i d ++ mjoin (imap (fun k x => F (i + 1 + Z.of_nat k) x) l).
Proof.
  cbn [imap mjoin list_join]. rewrite Z.add_0_r. do 2 f_equal.
  apply imap_ext. intros k x _. simpl. f_equal. lia.
Qed.

Lemma removeAll_loop_spec destroy l : forall i s,
  removeAll_loop l i destroy s =
  (Normal tt,
   {| _dataSources := _dataSources s; objects := objects s;
      trace := trace s ++
        mjoin (imap (fun k d =>
                 removed_entries destroy (_dataSources s) (i + Z.of_nat k) d) l);
      destroyed := destroyed s |}).
Proof.
  induction l as [|d l IH]; intros i s.
  - simpl. unfold ret. rewrite app_nil_r. by destruct s.
  - rewrite (mjoin_imap_offset
               (fun i d => removed_entries destroy (_dataSources s) i d)).
    cbn [removeAll_loop]. unfold bind, emit.
    destruct destroy; cbn [ret]; cbv beta iota; rewrite IH;
      cbn [_dataSources objects trace destroyed removed_entries];
      by rewrite <- ?app_assoc.
Qed.

Lemma removeAll_spec destroy s :
  removeAll destroy s =
  (Normal VUndefined,
   {| _dataSources := []; objects := objects s;
      trace := trace s ++
        removeAll_trace (defaultValue destroy true) (_dataSources s);
      destroyed := destroyed s |}).
Proof.
  unfold removeAll, bind, get_dataSources. simpl.
  by rewrite removeAll_loop_spec.
Qed.

Lemma getDataSourceIndex_member arr d (k : nat) s :
  Array_indexOf arr (Some d) = Z.of_nat k ->
  getDataSourceIndex arr (Some d) s = (Normal (Z.of_nat k), s).
Proof.
  intros Hk. unfold getDataSourceIndex. rewrite Hk.
  by destruct (Z.eqb_spec (Z.of_nat k) (-1)); [lia|].
Qed.

Lemma getDataSourceIndex_absent arr d s :
  d ∉ arr -> getDataSourceIndex arr (Some d) s = (Throw not_a_member, s).
Proof.
  intros Hd. unfold getDataSourceIndex, Array_indexOf.
  by rewrite indexOf_from_notin.
Qed.

Ltac js_run :=
  unfold bind, get_dataSources, set_dataSources, ret; cbv beta iota zeta.

Lemma swapDataSources_same (k : nat) j s :
  Z.of_nat k = length_of (_dataSources s) - 1 /\ Z.of_nat k <= j
  \/ k = 0%nat /\ j <= 0 /\ _dataSources s ≠ [] ->
  swapDataSources (Z.of_nat k) j s = (Normal tt, s).
Proof.
  intros H. unfold swapDataSources. js_run.
  assert (0 <= length_of (_dataSources s) - 1) as Hlen.
  { unfold length_of in *. destruct (_dataSources s); simpl length in *;
      [|lia]. destruct H as [[? ?]|(? & ? & ?)]; [lia|done]. }
  rewrite (clamp_in_range (Z.of_nat k)) by (destruct H as [[? ?]|(? & ? & ?)]; lia).
  assert (clamp j 0 (length_of (_dataSources s) - 1) = Z.of_nat k) as ->.
  { destruct H as [[Hk Hj]|(-> & Hj & _)].
    - destruct (decide (j = Z.of_nat k)) as [->|].
      + apply clamp_in_range; lia.
      + rewrite Hk. apply clamp_above. lia.
    - destruct (decide (j = 0)) as [->|]; [by apply clamp_in_range|].
      apply clamp_below. lia. }
  by rewrite Z.eqb_refl.
Qed.

Lemma swapDataSources_swap (i j : nat) a b s :
  i ≠ j ->
  _dataSources s !! i = Some a -> _dataSources s !! j = Some b ->
  swapDataSources (Z.of_nat i) (Z.of_nat j) s =
  (Normal tt,
   logged (raiseEvent dataSourceMoved
             [VRef a; VNum (Z.of_nat j); VNum (Z.of_nat i)])
     (after_pass
        (with_dataSources (<[j := a]> (<[i := b]> (_dataSources s))) s))).
Proof.
  intros Hij Ha Hb. unfold swapDataSources. js_run.
  pose proof (lookup_lt_Some _ _ _ Ha). pose proof (lookup_lt_Some _ _ _ Hb).
  rewrite !clamp_in_range by (unfold length_of; lia).
  destruct (Z.eqb_spec (Z.of_nat i) (Z.of_nat j)); [lia|].
  rewrite !Array_get_nat, Ha, Hb, !Nat2Z.id.
  change {| _dataSources := <[j:=a]> (<[i:=b]> (_dataSources s));
            objects := objects s; trace := trace s;
            destroyed := destroyed s |}
    with (with_dataSources (<[j:=a]> (<[i:=b]> (_dataSources s))) s).
  by rewrite _update_spec.
Qed.

Lemma raise_top d s (k : nat) :
  Array_indexOf (_dataSources s) (Some d) = Z.of_nat k ->
  Z.of_nat k = length_of (_dataSources s) - 1 ->
  raise (Some d) s = (Normal VUndefined, s).
Proof.
  intros Hk Htop. unfold raise. js_run.
  rewrite (getDataSourceIndex_member _ _ k) by done.
  rewrite swapDataSources_same by (left; lia). done.
Qed.

Lemma raise_inner d e s (k : nat) :
  Array_indexOf (_dataSources s) (Some d) = Z.of_nat k ->
  _dataSources s !! S k = Some e ->
  raise (Some d) s =
  (Normal VUndefined,
   logged (raiseEvent dataSourceMoved
             [VRef d; VNum (Z.of_nat k + 1); VNum (Z.of_nat k)])
     (after_pass
        (with_dataSources (<[S k := d]> (<[k := e]> (_dataSources s))) s))).
Proof.
  intros Hk He. unfold raise. js_run.
  rewrite (getDataSourceIndex_member _ _ k) by done.
  replace (Z.of_nat k + 1) with (Z.of_nat (S k)) by lia.
  rewrite (swapDataSources_swap k (S k) d e);
    [done|lia|by apply Array_indexOf_lookup|done].
Qed.

Lemma lower_bottom d s :
  Array_indexOf (_dataSources s) (Some d) = 0 ->
  lower (Some d) s = (Normal VUndefined, s).
Proof.
  intros Hk. unfold lower. js_run.
  rewrite (getDataSourceIndex_member _ _ 0%nat) by done.
  rewrite (swapDataSources_same 0%nat); [done|].
  right. split; [done|]. split; [simpl; lia|].
  apply (Array_indexOf_lookup _ _ 0%nat) in Hk. by destruct (_dataSources s).
Qed.

Lemma lower_inner d e s (k : nat) :
  Array_indexOf (_dataSources s) (Some d) = Z.of_nat (S k) ->
  _dataSources s !! k = Some e ->
  lower (Some d) s =
  (Normal VUndefined,
   logged (raiseEvent dataSourceMoved
             [VRef d; VNum (Z.of_nat (S k) - 1); VNum (Z.of_nat (S k))])
     (after_pass
        (with_dataSources (<[k := d]> (<[S k := e]> (_dataSources s))) s))).
Proof.
  intros Hk He. unfold lower. js_run.
  rewrite (getDataSourceIndex_member _ _ (S k)) by done.
  replace (Z.of_nat (S k) - 1) with (Z.of_nat k) by lia.
  rewrite (swapDataSources_swap (S k) k d e);
    [done|lia|by apply Array_indexOf_lookup|done].
Qed.

Lemma reorder_absent d s :
  d ∉ _dataSources s ->
  raise (Some d) s = (Throw not_a_member, s)
  /\ lower (Some d) s = (Throw not_a_member, s)
  /\ raiseToTop (Some d) s = (Throw not_a_member, s)
  /\ lowerToBottom (Some d) s = (Throw not_a_member, s).
Proof.
  intros Hd. unfold raise, lower, raiseToTop, lowerToBottom. js_run.
  by rewrite getDataSourceIndex_absent.
Qed.

Lemma raiseToTop_top d s (k : nat) :
  Array_indexOf (_dataSources s) (Some d) = Z.of_nat k ->
  Z.of_nat k = length_of (_dataSources s) - 1 ->
  raiseToTop (Some d) s = (Normal VUndefined, s).
Proof.
  intros Hk Htop. unfold raiseToTop. js_run.
  rewrite (getDataSourceIndex_member _ _ k) by done.
  rewrite Htop. by rewrite Z.eqb_refl.
Qed.

Lemma raiseToTop_inner d s (k : nat) :
  Array_indexOf (_dataSources s) (Some d) = Z.of_nat k ->
  Z.of_nat k ≠ length_of (_dataSources s) - 1 ->
  raiseToTop (Some d) s =
  (Normal VUndefined,
   logged (raiseEvent dataSourceMoved
             [VRef d; VNum (length_of (_dataSources s) - 1); VNum (Z.of_nat k)])
     (after_pass
        (with_dataSources (delete k (_dataSources s) ++ [d]) s))).
Proof.
  intros Hk Hne. unfold raiseToTop. js_run.
  rewrite (getDataSourceIndex_member _ _ k) by done.
  destruct (Z.eqb_spec (Z.of_nat k) (length_of (_dataSources s) - 1)); [done|].
  rewrite splice_delete.
  change {| _dataSources := delete k (_dataSources s) ++ [d];
            objects := objects s; trace := trace s;
            destroyed := destroyed s |}
    with (with_dataSources (delete k (_dataSources s) ++ [d]) s).
  rewrite _update_spec. unfold emit. cbv beta iota.
  apply Array_indexOf_lookup, lookup_lt_Some in Hk.
  replace (length_of (delete k (_dataSources s) ++ [d]) - 1)
    with (length_of (_dataSources s) - 1); [done|].
  unfold length_of. rewrite length_app, length_delete by eauto using lookup_lt_is_Some_2.
  simpl. lia.
Qed.

Lemma lowerToBottom_bottom d s :
  Array_indexOf (_dataSources s) (Some d) = 0 ->
  lowerToBottom (Some d) s = (Normal VUndefined, s).
Proof.
  intros Hk. unfold lowerToBottom. js_run.
  by rewrite (getDataSourceIndex_member _ _ 0%nat).
Qed.

Lemma lowerToBottom_inner d s (k : nat) :
  Array_indexOf (_dataSources s) (Some d) = Z.of_nat (S k) ->
  lowerToBottom (Some d) s =
  (Normal VUndefined,
   logged (raiseEvent dataSourceMoved
             [VRef d; VNum 0; VNum (Z.of_nat (S k))])
     (after_pass
        (with_dataSources (d :: delete (S k) (_dataSources s)) s))).
Proof.
  intros Hk. unfold lowerToBottom. js_run.
  rewrite (getDataSourceIndex_member _ _ (S k)) by done.
  destruct (Z.eqb_spec (Z.of_nat (S k)) 0); [lia|].
  rewrite splice_delete.
  rewrite (splice_insert _ 0%nat) by lia. rewrite take_0, drop_0. simpl app.
  change {| _dataSources := d :: delete (S k) (_dataSources s);
            objects := objects s; trace := trace s;
            destroyed := destroyed s |}
    with (with_dataSources (d :: delete (S k) (_dataSources s)) s).
  by rewrite _update_spec.
Qed.

(** ** Every call, by what it does to the array *)

Lemma swap_up_perm (l : list handle) : forall (k : nat) d e,
  l !! k = Some d -> l !! S k = Some e ->
  <[S k := d]> (<[k := e]> l) ≡ₚ l.
Proof.
  induction l as [|x l IH]; intros k d e Hd He; [done|].
  destruct k as [|k]; simpl in *.
  - injection Hd as ->. destruct l as [|y l]; [done|].
    simpl in *. injection He as ->. apply perm_swap.
  - apply perm_skip. by apply IH.
Qed.

Lemma swap_down_perm (l : list handle) : forall (k : nat) d e,
  l !! S k = Some d -> l !! k = Some e ->
  <[k := d]> (<[S k := e]> l) ≡ₚ l.
Proof.
  induction l as [|x l IH]; intros k d e Hd He; [done|].
  destruct k as [|k]; simpl in *.
  - injection He as ->. destruct l as [|y l]; [done|].
    simpl in *. injection Hd as ->. apply perm_swap.
  - apply perm_skip. by apply IH.
Qed.

Lemma submseteq_keeps_NoDup (l k : list handle) :
  NoDup k -> l ⊆+ k -> NoDup l.
Proof.
  intros Hk (l2 & Hsub & Hperm)%submseteq_sublist_l.
  apply (sublist_NoDup l l2); [|done]. by rewrite Hperm.
Qed.

Lemma with_dataSources_same s : with_dataSources (_dataSources s) s = s.
Proof. by destruct s. Qed.

(** A call leaves the state as it was; or it rearranges the array, runs
    the pass and raises its own events; or it empties the array without
    a pass. *)
Lemma call_cases m s :
  (exists r, call m s = (r, s))
  \/ (exists arr' es v,
        call m s =
          (Normal v, logged_all es (after_pass (with_dataSources arr' s)))
        /\ (arr' ⊆+ _dataSources s
            \/ exists d i, m = m_add (Some d) i /\ arr' ≡ₚ d :: _dataSources s))
  \/ (exists v s', call m s = (Normal v, s')
        /\ _dataSources s' = [] /\ objects s' = objects s).
Proof.
  destruct m as [[d|] [i|]|[d|] b|b|d|d|[i|]| |[d|]|[d|]|[d|]|[d|]| | |];
    cbn [call]; try (left; eexists; reflexivity).
  - (* add at an index *)
    destruct (Z_lt_le_dec i 0) as [Hlo|Hlo];
      [left; eexists; by apply add_below|].
    destruct (Z_lt_le_dec (length_of (_dataSources s)) i) as [Hhi|Hhi];
      [left; eexists; by apply add_above|].
    right; left. rewrite add_at by lia. eexists _, [_], _. split; [done|].
    right. exists d, (Some i). split; [done|].
    rewrite <- (Z2Nat.id i) by lia. unfold length_of in Hhi.
    rewrite splice_insert by lia.
    rewrite <- Permutation_middle. by rewrite take_drop.
  - (* add on top *)
    right; left. rewrite add_append. eexists _, [_], _. split; [done|].
    right. exists d, None. split; [done|].
    by rewrite Permutation_app_comm.
  - (* remove *)
    destruct (decide (d ∈ _dataSources s)) as [Hd|Hd].
    + destruct (Array_indexOf_member _ _ Hd) as (k & Hk & Hl & _).
      right; left. rewrite (remove_member _ _ _ k) by done.
      exists (delete k (_dataSources s)).
      exists (raiseEvent dataSourceRemoved [VRef d; VNum (Z.of_nat k)]
              :: if defaultValue b true then [destroyCall d] else []).
      eexists. split; [by destruct (defaultValue b true)|].
      left. apply sublist_submseteq, sublist_delete.
    + left. eexists. apply remove_absent. by apply indexOf_from_notin.
  - (* removeAll *)
    right; right. rewrite removeAll_spec. by eexists _, _.
  - (* raise *)
    destruct (decide (d ∈ _dataSources s)) as [Hd|Hd];
      [|left; eexists; by apply reorder_absent].
    destruct (Array_indexOf_member _ _ Hd) as (k & Hk & Hl & _).
    destruct (decide (Z.of_nat k = length_of (_dataSources s) - 1)) as [Ht|Ht];
      [left; eexists; by apply (raise_top _ _ k)|].
    destruct (lookup_lt_is_Some_2 (_dataSources s) (S k)) as [e He].
    { apply lookup_lt_Some in Hl. unfold length_of in Ht. lia. }
    right; left. rewrite (raise_inner d e s k) by done.
    eexists _, [_], _. split; [done|].
    left. by apply Permutation_submseteq, swap_up_perm.
  - (* lower *)
    destruct (decide (d ∈ _dataSources s)) as [Hd|Hd];
      [|left; eexists; by apply reorder_absent].
    destruct (Array_indexOf_member _ _ Hd) as (k & Hk & Hl & _).
    destruct k as [|k]; [left; eexists; by apply lower_bottom|].
    destruct (lookup_lt_is_Some_2 (_dataSources s) k) as [e He].
    { apply lookup_lt_Some in Hl. lia. }
    right; left. rewrite (lower_inner d e s k) by done.
    eexists _, [_], _. split; [done|].
    left. by apply Permutation_submseteq, swap_down_perm.
  - (* raiseToTop *)
    destruct (decide (d ∈ _dataSources s)) as [Hd|Hd];
      [|left; eexists; by apply reorder_absent].
    destruct (Array_indexOf_member _ _ Hd) as (k & Hk & Hl & _).
    destruct (decide (Z.of_nat k = length_of (_dataSources s) - 1)) as [Ht|Ht];
      [left; eexists; by apply (raiseToTop_top _ _ k)|].
    right; left. rewrite (raiseToTop_inner d s k) by done.
    eexists _, [_], _. split; [done|].
    left. apply Permutation_submseteq.
    rewrite Permutation_app_comm. simpl. symmetry. by apply delete_Permutation.
  - (* lowerToBottom *)
    destruct (decide (d ∈ _dataSources s)) as [Hd|Hd];
      [|left; eexists; by apply reorder_absent].
    destruct (Array_indexOf_member _ _ Hd) as (k & Hk & Hl & _).
    destruct k as [|k]; [left; eexists; by apply lowerToBottom_bottom|].
    right; left. rewrite (lowerToBottom_inner d s k) by done.
    eexists _, [_], _. split; [done|].
    left. apply Permutation_submseteq. symmetry. by apply delete_Permutation.
  - (* destroy *)
    right; right. unfold destroy, bind. rewrite removeAll_spec.
    by eexists _, _.
  - (* _update *)
    right; left. unfold bind. rewrite _update_spec.
    exists (_dataSources s), [], VUndefined.
    split; [by rewrite with_dataSources_same|]. by left.
Qed.

(** The [TypeError] branch of [swapDataSources] is never taken by a call
    of a method: the indices [raise] and [lower] pass are slots of the
    array. *)
Lemma call_never_TypeError m s : (call m s).1 ≠ Throw TypeError.
Proof.
  destruct (call_cases m s)
    as [[r Hr]|[(arr' & es & v & -> & _)|(v & s' & -> & _)]]; [|done|done].
  destruct m as [[d|] [i|]|[d|] b|b|d|d|[i|]| |[d|]|[d|]|[d|]|[d|]| | |];
    cbn [call] in *; try done.
  - destruct (Z_lt_le_dec i 0) as [Hlo|Hlo]; [by rewrite add_below|].
    destruct (Z_lt_le_dec (length_of (_dataSources s)) i) as [Hhi|Hhi];
      [by rewrite add_above|]. by rewrite add_at by lia.
  - by rewrite add_append.
  - destruct (decide (d ∈ _dataSources s)) as [Hd|Hd].
    + destruct (Array_indexOf_member _ _ Hd) as (k & Hk & _).
      by rewrite (remove_member _ _ _ k).
    + rewrite remove_absent; [done|]. by apply indexOf_from_notin.
  - by rewrite removeAll_spec.
  - destruct (decide (d ∈ _dataSources s)) as [Hd|Hd];
      [|by destruct (reorder_absent d s Hd) as (-> & _)].
    destruct (Array_indexOf_member _ _ Hd) as (k & Hk & Hl & _).
    destruct (decide (Z.of_nat k = length_of (_dataSources s) - 1)) as [Ht|Ht];
      [by rewrite (raise_top d s k)|].
    destruct (lookup_lt_is_Some_2 (_dataSources s) (S k)) as [e He].
    { apply lookup_lt_Some in Hl. unfold length_of in Ht. lia. }
    by rewrite (raise_inner d e s k).
  - destruct (decide (d ∈ _dataSources s)) as [Hd|Hd];
      [|by destruct (reorder_absent d s Hd) as (_ & -> & _)].
    destruct (Array_indexOf_member _ _ Hd) as (k & Hk & Hl & _).
    destruct k as [|k]; [by rewrite lower_bottom|].
    destruct (lookup_lt_is_Some_2 (_dataSources s) k) as [e He].
    { apply lookup_lt_Some in Hl. lia. }
    by rewrite (lower_inner d e s k).
  - destruct (decide (d ∈ _dataSources s)) as [Hd|Hd];
      [|by destruct (reorder_absent d s Hd) as (_ & _ & -> & _)].
    destruct (Array_indexOf_member _ _ Hd) as (k & Hk & Hl & _).
    destruct (decide (Z.of_nat k = length_of (_dataSources s) - 1)) as [Ht|Ht];
      [by rewrite (raiseToTop_top d s k)|].
    by rewrite (raiseToTop_inner d s k).
  - destruct (decide (d ∈ _dataSources s)) as [Hd|Hd];
      [|by destruct (reorder_absent d s Hd) as (_ & _ & _ & ->)].
    destruct (Array_indexOf_member _ _ Hd) as (k & Hk & Hl & _).
    destruct k as [|k]; [by rewrite lowerToBottom_bottom|].
    by rewrite (lowerToBottom_inner d s k).
  - unfold destroy, bind. by rewrite removeAll_spec.
  - unfold bind. by rewrite _update_spec.
Qed.

(** ** add *)

(** C1, counterexample: adding A on top of the empty collection succeeds
    and returns [undefined], not the index 0. *)
Lemma add_returns_index_fails : ~ add_returns_index.
Proof.
  intros H.
  specialize (H A None empty_collection VUndefined _
                (add_append A empty_collection)).
  discriminate H.
Qed.

(** C1, amended: for every data source and every valid index (and also
    when the index is omitted), [add] succeeds and returns [undefined]; the
    data source then sits at the given index (the previous length when
    appending), the former elements keep their order around it, and that
    index is the one the "added" event, the last call out, carries. *)
Theorem add_inserts_at_index d index s :
  valid_index index s ->
  exists s' (k : nat),
    add (Some d) index s = (Normal VUndefined, s')
    /\ Z.of_nat k = insertion_index index s
    /\ _dataSources s' = take k (_dataSources s) ++ d :: drop k (_dataSources s)
    /\ _dataSources s' !! k = Some d
    /\ list.last (trace s')
       = Some (raiseEvent dataSourceAdded
                 [VRef d; VNum (insertion_index index s)],
               _dataSources s').
Proof.
  intros Hv. destruct index as [i|]; simpl in Hv.
  - eexists _, (Z.to_nat i). rewrite add_at by done.
    split; [done|]. split; [simpl; lia|].
    assert (Z.to_nat i <= length (_dataSources s))%nat as Hk
      by (unfold length_of in Hv; lia).
    cbn [logged after_pass with_dataSources _dataSources trace insertion_index].
    assert (splice (_dataSources s) i 0 [d]
            = take (Z.to_nat i) (_dataSources s)
              ++ d :: drop (Z.to_nat i) (_dataSources s)) as ->.
    { rewrite <- (Z2Nat.id i) at 1 by lia. by apply splice_insert. }
    split; [done|]. split; [|by rewrite last_snoc].
    rewrite lookup_app_r by (rewrite length_take; lia).
    rewrite length_take.
    by replace (Z.to_nat i - Z.to_nat i `min` length (_dataSources s))%nat
      with 0%nat by lia.
  - eexists _, (length (_dataSources s)). rewrite add_append.
    split; [done|]. split; [done|].
    cbn [logged after_pass with_dataSources _dataSources trace insertion_index].
    rewrite take_ge, drop_ge by lia.
    split; [done|]. split; [|by rewrite last_snoc].
    rewrite lookup_app_r by lia. by rewrite Nat.sub_diag.
Qed.

Lemma add_inserts_at_index_witness :
  exists s' (k : nat),
    add (Some B) (Some 1) collection_ABC = (Normal VUndefined, s')
    /\ Z.of_nat k = 1
    /\ _dataSources s' = take k [A; B; C] ++ B :: drop k [A; B; C]
    /\ _dataSources s' !! k = Some B
    /\ list.last (trace s')
       = Some (raiseEvent dataSourceAdded [VRef B; VNum 1], _dataSources s').
Proof.
  apply (add_inserts_at_index B (Some 1) collection_ABC).
  change (0 <= 1 <= 3). lia.
Defined.

(** C8: a failed [add] (no data source, or an index outside
    [[0, length]]) throws with the state exactly as it was, and [remove] of
    something that is not in the collection returns [false] with the state
    exactly as it was: array, objects and log (no event, no [destroy()]). *)
Theorem failed_add_remove_change_nothing s :
  (forall index,
     add None index s = (Throw (DeveloperError "dataSource is required."), s))
  /\ (forall d i,
        i < 0 \/ length_of (_dataSources s) < i ->
        exists e, add (Some d) (Some i) s = (Throw e, s))
  /\ (forall dataSource destroy,
        Array_indexOf (_dataSources s) dataSource = -1 ->
        remove dataSource destroy s = (Normal (VBool false), s))
  /\ (forall d destroy,
        d ∉ _dataSources s ->
        remove (Some d) destroy s = (Normal (VBool false), s)).
Proof.
  split; [intros; apply add_missing|].
  split.
  { intros d i [Hi|Hi]; eexists; [by apply add_below|by apply add_above]. }
  split; [intros; by apply remove_absent|].
  intros d destroy Hd. apply remove_absent. by apply indexOf_from_notin.
Qed.

Lemma failed_add_remove_change_nothing_witness :
  (exists e, add (Some A) (Some 4) collection_ABC = (Throw e, collection_ABC))
  /\ (exists e, add (Some A) (Some (-1)) collection_ABC
                = (Throw e, collection_ABC))
  /\ remove (Some 7%nat) None collection_ABC
     = (Normal (VBool false), collection_ABC).
Proof.
  destruct (failed_add_remove_change_nothing collection_ABC)
    as (_ & Hadd & Hrem & _).
  split; [apply Hadd; right; vm_compute; reflexivity|].
  split; [apply Hadd; left; lia|].
  apply Hrem. reflexivity.
Defined.

(** ** No duplicates *)

(** C2, counterexample: after [add(A)] on the empty collection, a second
    [add(A)] gives the array [[A, A]]. *)
Lemma add_member_keeps_NoDup_fails : ~ add_member_keeps_NoDup.
Proof.
  intros H.
  pose (s1 := after [m_add (Some A) None] empty_collection).
  specialize (H s1 A None _ _ (NoDup_singleton A)
                ltac:(apply list_elem_of_singleton; reflexivity)
                (add_append A s1)).
  change (NoDup [A; A]) in H.
  apply list.NoDup_cons in H as [Hin _]. apply Hin.
  by apply list_elem_of_singleton.
Qed.

(** C2, amended: every operation other than [add] of a data source that
    is already a member keeps the array free of duplicates, whatever the
    operation returns or throws, on a live instance ([call]) and on a
    destroyed one ([invoke]). [add] does not look for its argument in the
    array, so adding a member a second time gives it a second slot. *)
Theorem no_duplicates_preserved m s :
  NoDup (_dataSources s) -> ~ adds_member m s ->
  NoDup (_dataSources (call m s).2) /\ NoDup (_dataSources (invoke m s).2).
Proof.
  intros Hnd Hm.
  assert (NoDup (_dataSources (call m s).2)) as Hcall.
  { destruct (call_cases m s)
      as [[r ->]|[(arr' & es & v & -> & Harr)|(v & s' & -> & Hnil & _)]];
      [done| |simpl; rewrite Hnil; apply NoDup_nil_2].
    assert (NoDup arr') as Harr'.
    { destruct Harr as [Hsub|(d & i & -> & Hperm)].
      - by apply (submseteq_keeps_NoDup arr' (_dataSources s)).
      - rewrite Hperm. apply list.NoDup_cons. split; [|done].
        intros Hd. by apply Hm. }
    clear -Harr'. simpl.
    induction es as [|e es IH] using rev_ind; [done|].
    unfold logged_all in *. by rewrite foldl_app. }
  split; [done|]. unfold invoke.
  destruct (destroyed s); [|done]. by destruct m.
Qed.

Lemma no_duplicates_preserved_witness :
  NoDup (_dataSources (call (m_raise (Some A)) collection_ABC).2)
  /\ NoDup (_dataSources (invoke (m_raise (Some A)) collection_ABC).2).
Proof.
  apply (no_duplicates_preserved (m_raise (Some A)) collection_ABC).
  - change (NoDup [A; B; C]). compute_done.
  - intros H. exact H.
Defined.

(** ** remove *)



(** ** removeAll *)

(** C6: [removeAll] succeeds and leaves the array empty; its calls out
    are, for each data source in array order, the "removed" event with
    the data source and its index, followed at once by its [destroy()]
    when [destroy] is true (or omitted); the array is still whole at each
    of them.  No pass runs: no object changes and no shown-or-hidden event
    is raised. *)
Theorem removeAll_notifies_each_in_order destroy s :
  exists s',
    removeAll destroy s = (Normal VUndefined, s')
    /\ _dataSources s' = []
    /\ objects s' = objects s
    /\ trace s' =
       trace s
       ++ mjoin (imap (fun (k : nat) d =>
                   (raiseEvent dataSourceRemoved [VRef d; VNum (Z.of_nat k)],
                    _dataSources s)
                   :: (if defaultValue destroy true
                       then [(destroyCall d, _dataSources s)] else []))
                 (_dataSources s)).
Proof.
  eexists. rewrite removeAll_spec. done.
Qed.

(** ** Index consistency *)

Lemma reachable_after ms : forall s, reachable s -> reachable (after ms s).
Proof.
  induction ms as [|m ms IH]; intros s Hs; [done|].
  apply IH. eapply reachable_step; [done|constructor].
Qed.

Lemma logged_all_dataSources es s :
  _dataSources (logged_all es s) = _dataSources s.
Proof.
  induction es as [|e es IH] using rev_ind; [done|].
  unfold logged_all in *. by rewrite foldl_app.
Qed.

Lemma logged_all_objects es s : objects (logged_all es s) = objects s.
Proof.
  induction es as [|e es IH] using rev_ind; [done|].
  unfold logged_all in *. by rewrite foldl_app.
Qed.

Lemma logged_all_trace es s :
  trace (logged_all es s)
  = trace s ++ map (fun e => (e, _dataSources s)) es.
Proof.
  induction es as [|e es IH] using rev_ind; [by rewrite app_nil_r|].
  fold (logged_all es s) in IH.
  unfold logged_all. rewrite foldl_app. fold (logged_all es s).
  simpl. rewrite IH, logged_all_dataSources, map_app. by rewrite <- app_assoc.
Qed.

Lemma pass_index_consistent s :
  NoDup (_dataSources s) -> index_consistent (after_pass s).
Proof.
  intros Hnd k d Hk. simpl in *. unfold pass_objects.
  by rewrite (walk_index _ _ _ _ k).
Qed.

Lemma call_keeps_consistency m s :
  consistent_unless_duplicates s ->
  consistent_unless_duplicates (call m s).2.
Proof.
  intros Hinv.
  destruct (call_cases m s)
    as [[r ->]|[(arr' & es & v & -> & _)|(v & s' & -> & Hnil & _)]];
    [done| |].
  - simpl. intros Hnd k d Hk.
    rewrite logged_all_dataSources in Hnd, Hk. rewrite logged_all_objects.
    by apply (pass_index_consistent (with_dataSources arr' s)).
  - simpl. intros _ k d Hk. by rewrite Hnil in Hk.
Qed.

Lemma reachable_consistent s :
  reachable s -> consistent_unless_duplicates s.
Proof.
  induction 1 as [objs|s s' _ IH Hstep]; [by intros _ k d Hk|].
  destruct Hstep as [m s|d b s]; [by apply call_keeps_consistency|].
  intros Hnd k x Hk. simpl in *. specialize (IH Hnd k x Hk).
  unfold insert, fn_insert. by destruct (decide (d = x)) as [->|].
Qed.

(** C4, counterexample: after [add(A)] on the empty collection, a second
    [add(A)] succeeds and leaves the array [[A, A]]; the pass wrote 0 and
    then 1 into A's stored index, so slot 0 holds a data source whose
    stored index is 1. *)
Lemma mutation_leaves_index_consistent_fails :
  ~ mutation_leaves_index_consistent.
Proof.
  intros H.
  pose (s1 := after [m_add (Some A) None] empty_collection).
  assert (reachable s1) as Hs1 by (apply reachable_after; constructor).
  specialize (H s1 (m_add (Some A) None) _ _ Hs1 eq_refl (add_append A s1)
                0%nat A eq_refl).
  vm_compute in H. discriminate H.
Qed.

(** C4, amended: after every successful mutating operation on a
    collection obtained from a new one by method calls and changes of
    [show] flags, if the array then holds no data source twice, each slot
    holds a data source whose stored index is the slot's.  (A data source
    held in two slots has one stored index, that of its last slot.) *)
Theorem mutation_leaves_index_consistent_unless_duplicates s m v s' :
  reachable s -> mutating m = true ->
  call m s = (Normal v, s') ->
  NoDup (_dataSources s') ->
  forall (i : nat) d,
    _dataSources s' !! i = Some d ->
    _dataSourceIndex (objects s' d) = Some (Z.of_nat i).
Proof.
  intros Hs _ Hcall Hnd.
  pose proof (call_keeps_consistency m s (reachable_consistent s Hs)) as H.
  rewrite Hcall in H. by apply H.
Qed.

Lemma mutation_leaves_index_consistent_unless_duplicates_witness :
  _dataSources (call (m_raise (Some A)) collection_ABC).2 = [B; A; C]
  /\ _dataSourceIndex
       (objects (call (m_raise (Some A)) collection_ABC).2 A)
     = Some 1.
Proof.
  split; [reflexivity|].
  change (Some 1) with (Some (Z.of_nat 1)).
  apply (mutation_leaves_index_consistent_unless_duplicates
           collection_ABC (m_raise (Some A)) VUndefined
           (call (m_raise (Some A)) collection_ABC).2).
  - apply reachable_after. constructor.
  - reflexivity.
  - reflexivity.
  - change (NoDup [B; A; C]). compute_done.
  - reflexivity.
Defined.

(** ** The pass *)

Lemma firsts_elem_of l x : x ∈ firsts l <-> x ∈ l.
Proof.
  induction l as [|y l IH]; [done|]. simpl.
  rewrite !elem_of_cons, list_elem_of_filter, IH.
  destruct (decide (x = y)); tauto.
Qed.

Lemma firsts_NoDup l : NoDup (firsts l).
Proof.
  induction l as [|y l IH]; simpl; [apply NoDup_nil_2|].
  apply list.NoDup_cons. split; [|by apply list.NoDup_filter].
  rewrite list_elem_of_filter. tauto.
Qed.

Lemma walk_index_slot ds : forall i objs acc h,
  h ∈ ds ->
  exists k : nat,
    ds !! k = Some h
    /\ _dataSourceIndex ((walk ds i objs acc).1 h) = Some (i + Z.of_nat k).
Proof.
  induction ds as [|d ds IH]; intros i objs acc h Hh.
  - by apply elem_of_nil in Hh.
  - rewrite walk_step. destruct (decide (h ∈ ds)) as [Hin|Hnin].
    + destruct (IH (i + 1) (<[d:=visit i (objs d)]> objs)
                  (if pending objs d then push_shown acc d else acc) h Hin)
        as (k & Hk & Hi).
      exists (S k). split; [done|]. rewrite Hi. f_equal. lia.
    + apply elem_of_cons in Hh as [->|Hh]; [|done].
      exists 0%nat. split; [done|]. rewrite walk_notin by done.
      rewrite fn_lookup_insert, visit_index. f_equal. lia.
Qed.

Lemma pending_spec objs d :
  Is_true (pending objs d)
  <-> exists b, _show (objs d) = Some b /\ b ≠ show (objs d).
Proof.
  unfold pending. destruct (_show (objs d)) as [b|].
  - split.
    + intros H. exists b. split; [done|]. intros ->.
      by rewrite Bool.eqb_reflx in H.
    + intros (b' & [= <-] & Hne).
      destruct (Bool.eqb (show (objs d)) b) eqn:E; [|done].
      apply Bool.eqb_prop in E. congruence.
  - split; [intros []|intros (b & [=] & _)].
Qed.

(** C5: the pass succeeds; the shown-or-hidden events it raises are, in
    the order of the walk and each once, those of the data sources in the
    array whose shadow [_show] was defined and differs from [show] (a
    shadow still undefined, as for a data source just added, raises
    nothing); each event carries the data source, its stored index as the
    completed walk left it (a slot of the data source; its slot when the
    array is duplicate-free) and its [show].  In the example, the three
    calls of [add] raise no such event, and the pass after B's [show] was
    set to [true] raises exactly one, carrying (B, 1, true). *)
Theorem pass_reports_visibility_changes :
  (forall s,
     exists s' shown,
       _update s = (Normal tt, s')
       /\ _dataSources s' = _dataSources s
       /\ trace s' =
          trace s
          ++ map (fun d =>
                    (raiseEvent dataSourceShownOrHidden
                       [VRef d; of_index (_dataSourceIndex (objects s' d));
                        VBool (show (objects s d))],
                     _dataSources s))
                 shown
       /\ shown = filter (fun d => Is_true (pending (objects s) d))
                         (firsts (_dataSources s))
       /\ NoDup shown
       /\ (forall d, d ∈ shown
             <-> d ∈ _dataSources s
                 /\ exists b, _show (objects s d) = Some b
                              /\ b ≠ show (objects s d))
       /\ (forall d, d ∈ _dataSources s ->
             exists k : nat,
               _dataSources s !! k = Some d
               /\ _dataSourceIndex (objects s' d) = Some (Z.of_nat k))
       /\ (NoDup (_dataSources s) ->
             firsts (_dataSources s) = _dataSources s
             /\ forall (k : nat) d,
                  _dataSources s !! k = Some d ->
                  _dataSourceIndex (objects s' d) = Some (Z.of_nat k)))
  /\ map fst (trace collection_ABC)
     = [raiseEvent dataSourceAdded [VRef A; VNum 0];
        raiseEvent dataSourceAdded [VRef B; VNum 1];
        raiseEvent dataSourceAdded [VRef C; VNum 2]]
  /\ new_entries collection_ABC_B_shown (_update collection_ABC_B_shown).2
     = [(raiseEvent dataSourceShownOrHidden [VRef B; VNum 1; VBool true],
         [A; B; C])].
Proof.
  split; [|split; reflexivity].
  intros s. eexists _, _. rewrite _update_spec.
  split; [done|]. split; [done|]. split.
  { cbn [after_pass trace objects]. unfold pass_trace, shown_entry.
    f_equal. apply map_ext_in. intros d _. unfold pass_objects.
    by rewrite walk_show. }
  split; [apply pass_shown_spec|].
  split; [rewrite pass_shown_spec; apply list.NoDup_filter, firsts_NoDup|].
  split.
  { intros d. rewrite pass_shown_spec, list_elem_of_filter, firsts_elem_of.
    rewrite pending_spec. tauto. }
  split.
  { intros d Hd.
    destruct (walk_index_slot (_dataSources s) 0 (objects s) None d Hd)
      as (k & Hk & Hi).
    exists k. split; [done|]. simpl. unfold pass_objects. by rewrite Hi. }
  intros Hnd. split; [by apply firsts_NoDup_id|].
  by apply pass_index_consistent.
Qed.

Lemma pass_reports_visibility_changes_witness :
  firsts [A; B; C] = [A; B; C]
  /\ forall (k : nat) d,
       [A; B; C] !! k = Some d ->
       _dataSourceIndex (objects (_update collection_ABC_B_shown).2 d)
       = Some (Z.of_nat k).
Proof.
  destruct pass_reports_visibility_changes as [H _].
  destruct (H collection_ABC_B_shown) as (s' & shown & Hs' & _ & _ & _ & _ & _ & _ & Hnd).
  rewrite Hs'. apply Hnd.
  change (NoDup [A; B; C]). compute_done.
Defined.

(** ** raise and lower *)

Lemma pass_trace_only_shown arr objs e seen :
  (e, seen) ∈ pass_trace arr objs ->
  exists args, e = raiseEvent dataSourceShownOrHidden args.
Proof.
  unfold pass_trace. intros (d & [= -> _] & _)%list_elem_of_fmap.
  by eexists.
Qed.

(** C7, counterexample: on [[A, B, A]], reached by three calls of [add],
    A is in the top slot, but [raise(A)] finds A at index 0, exchanges
    slots 0 and 1 and leaves [[B, A, A]]. *)
Lemma raise_of_topmost_is_noop_fails : ~ raise_of_topmost_is_noop.
Proof.
  intros H.
  assert (reachable collection_ABA) as Hs by (apply reachable_after; constructor).
  specialize (H collection_ABA A Hs eq_refl).
  apply (f_equal (fun r => _dataSources r.2)) in H.
  vm_compute in H. discriminate H.
Qed.

(** C7, amended: [raise] and [lower] find a data source at its first slot,
    the index [indexOf] reports.  [raise] of the member whose first slot is
    the last index, which is the data source in the top slot whenever the
    array holds no data source twice, and [lower] of the member at index 0,
    which is the data source in the bottom slot of any array, return with
    the state exactly as it was (no event).  [raise] of a member whose
    first slot is any other index [k] exchanges it with the element at
    [k + 1], runs the pass and then raises one "moved" event carrying the
    data source, [k + 1] and [k]; the events before it are those of the
    pass.  [raise] and [lower] of a data source that is not in the
    collection throw the "not in this collection" error, the state as it
    was.  On [[A, B, C]], [raise(A)] gives [[B, A, C]] and the one event
    (A, 1, 0). *)
Theorem raise_lower_boundaries :
  (forall s d,
     (d ∈ _dataSources s ->
      Array_indexOf (_dataSources s) (Some d) = length_of (_dataSources s) - 1 ->
      raise (Some d) s = (Normal VUndefined, s))
     /\ (NoDup (_dataSources s) -> list.last (_dataSources s) = Some d ->
         raise (Some d) s = (Normal VUndefined, s))
     /\ (Array_indexOf (_dataSources s) (Some d) = 0 ->
         lower (Some d) s = (Normal VUndefined, s))
     /\ (head (_dataSources s) = Some d ->
         lower (Some d) s = (Normal VUndefined, s))
     /\ (forall k : nat,
           Array_indexOf (_dataSources s) (Some d) = Z.of_nat k ->
           Z.of_nat k < length_of (_dataSources s) - 1 ->
           exists e s',
             _dataSources s !! S k = Some e
             /\ raise (Some d) s = (Normal VUndefined, s')
             /\ _dataSources s' = <[S k := d]> (<[k := e]> (_dataSources s))
             /\ trace s' =
                trace s
                ++ pass_trace (_dataSources s') (objects s)
                ++ [(raiseEvent dataSourceMoved
                       [VRef d; VNum (Z.of_nat k + 1); VNum (Z.of_nat k)],
                     _dataSources s')])
     /\ (d ∉ _dataSources s ->
         raise (Some d) s = (Throw not_a_member, s)
         /\ lower (Some d) s = (Throw not_a_member, s)))
  /\ (exists s',
        raise (Some A) collection_ABC = (Normal VUndefined, s')
        /\ _dataSources s' = [B; A; C]
        /\ new_entries collection_ABC s'
           = [(raiseEvent dataSourceMoved [VRef A; VNum 1; VNum 0],
               [B; A; C])]).
Proof.
  split; [|eexists; split; [reflexivity|split; reflexivity]].
  intros s d.
  assert (forall k : nat,
            Array_indexOf (_dataSources s) (Some d) = Z.of_nat k ->
            Z.of_nat k = length_of (_dataSources s) - 1 ->
            raise (Some d) s = (Normal VUndefined, s)) as Htop
    by (intros k; apply raise_top).
  split.
  { intros Hd Htopmost.
    destruct (Array_indexOf_member _ _ Hd) as (k & Hk & _).
    apply (Htop k); [done|]. by rewrite <- Hk. }
  split.
  { intros Hnd Hlast. rewrite last_lookup in Hlast.
    pose proof (lookup_lt_Some _ _ _ Hlast) as Hlt.
    apply (Htop (pred (length (_dataSources s))));
      [by apply Array_indexOf_NoDup|]. unfold length_of. lia. }
  split; [apply lower_bottom|].
  split.
  { intros Hhead. apply lower_bottom.
    destruct (_dataSources s) as [|x l]; [done|]. injection Hhead as ->.
    simpl. by rewrite decide_True. }
  split.
  { intros k Hk Hlt.
    destruct (lookup_lt_is_Some_2 (_dataSources s) (S k)) as [e He].
    { unfold length_of in Hlt. lia. }
    exists e. eexists. split; [done|].
    rewrite (raise_inner d e s k Hk He).
    split; [done|]. split; [done|]. simpl. by rewrite <- app_assoc. }
  intros Hd. by destruct (reorder_absent d s Hd) as (? & ? & _).
Qed.

Lemma raise_lower_boundaries_witness :
  raise (Some C) collection_ABC = (Normal VUndefined, collection_ABC)
  /\ lower (Some A) collection_ABC = (Normal VUndefined, collection_ABC)
  /\ raise (Some 7%nat) collection_ABC = (Throw not_a_member, collection_ABC)
  /\ lower (Some 7%nat) collection_ABC = (Throw not_a_member, collection_ABC)
  /\ exists e s',
       [A; B; C] !! 2%nat = Some e
       /\ raise (Some B) collection_ABC = (Normal VUndefined, s')
       /\ _dataSources s' = <[2%nat := B]> (<[1%nat := e]> [A; B; C])
       /\ trace s' =
          trace collection_ABC
          ++ pass_trace (_dataSources s') (objects collection_ABC)
          ++ [(raiseEvent dataSourceMoved [VRef B; VNum 2; VNum 1],
               _dataSources s')].
Proof.
  destruct raise_lower_boundaries as [H _].
  split.
  { destruct (H collection_ABC C) as (Htop & _). apply Htop.
    - change (C ∈ [A; B; C]). compute_done.
    - reflexivity. }
  split.
  { destruct (H collection_ABC A) as (_ & _ & Hbottom & _). apply Hbottom.
    reflexivity. }
  assert (7%nat ∉ [A; B; C]) as Hnot by compute_done.
  destruct (H collection_ABC 7%nat) as (_ & _ & _ & _ & _ & Habsent).
  split; [by apply Habsent|]. split; [by apply Habsent|].
  destruct (H collection_ABC B) as (_ & _ & _ & _ & Hinner & _).
  apply (Hinner 1%nat); [reflexivity|vm_compute; reflexivity].
Defined.

(** ** destroy *)

(** C9: on a live collection [destroy()] is [removeAll(true)] followed by
    [destroyObject]; once it has returned, the is-destroyed check answers
    [true] and every other call, [add] among them, throws the
    destroyed-state error and leaves the state as it is. *)
Theorem destroyed_collection_rejects_calls s :
  destroyed s = false ->
  exists s1 s',
    invoke m_isDestroyed s = (Normal (VBool false), s)
    /\ removeAll (Some true) s = (Normal VUndefined, s1)
    /\ destroyObject s1 = (Normal VUndefined, s')
    /\ invoke m_destroy s = (Normal VUndefined, s')
    /\ _dataSources s' = [] /\ destroyed s' = true
    /\ invoke m_isDestroyed s' = (Normal (VBool true), s')
    /\ (forall d index,
          invoke (m_add d index) s'
          = (Throw (DeveloperError destroyed_message), s'))
    /\ (forall m, m ≠ m_isDestroyed ->
          invoke m s' = (Throw (DeveloperError destroyed_message), s')).
Proof.
  intros Hlive. eexists _, _.
  split; [unfold invoke; by rewrite Hlive|].
  split; [apply removeAll_spec|].
  split; [reflexivity|].
  split.
  { unfold invoke. rewrite Hlive. cbn [call]. unfold destroy, bind.
    by rewrite removeAll_spec. }
  split; [done|]. split; [done|]. split; [done|].
  split; [done|]. intros m Hm. by destruct m.
Qed.

Lemma destroyed_collection_rejects_calls_witness :
  exists s1 s',
    invoke m_isDestroyed collection_ABC = (Normal (VBool false), collection_ABC)
    /\ removeAll (Some true) collection_ABC = (Normal VUndefined, s1)
    /\ destroyObject s1 = (Normal VUndefined, s')
    /\ invoke m_destroy collection_ABC = (Normal VUndefined, s')
    /\ _dataSources s' = [] /\ destroyed s' = true
    /\ invoke m_isDestroyed s' = (Normal (VBool true), s')
    /\ (forall d index,
          invoke (m_add d index) s'
          = (Throw (DeveloperError destroyed_message), s'))
    /\ (forall m, m ≠ m_isDestroyed ->
          invoke m s' = (Throw (DeveloperError destroyed_message), s')).
Proof.
  apply (destroyed_collection_rejects_calls collection_ABC). reflexivity.
Defined.

(** ** The reorder calls that find nothing to move *)

Lemma pass_reports_pending arr objs g :
  g ∈ arr -> Is_true (pending objs g) ->
  exists k : nat,
    arr !! k = Some g
    /\ _dataSourceIndex (pass_objects arr objs g) = Some (Z.of_nat k)
    /\ (raiseEvent dataSourceShownOrHidden
          [VRef g; VNum (Z.of_nat k); VBool (show (objs g))], arr)
       ∈ pass_trace arr objs.
Proof.
  intros Hg Hp.
  destruct (walk_index_slot arr 0 objs None g Hg) as (k & Hk & Hi).
  exists k. split; [done|]. split; [done|].
  unfold pass_trace. apply list_elem_of_fmap. exists g. split.
  - unfold shown_entry, pass_objects. by rewrite Hi, walk_show.
  - rewrite pass_shown_spec. apply list_elem_of_filter.
    split; [done|]. by apply firsts_elem_of.
Qed.

Lemma new_entries_same s : new_entries s s = [].
Proof. apply drop_all. Qed.

(** On a duplicate-free array, a call of a public method that leaves the
    array as it was raises nothing. *)
Lemma same_array_no_entries m s :
  NoDup (_dataSources s) -> m ≠ m_update ->
  _dataSources (call m s).2 = _dataSources s ->
  new_entries s (call m s).2 = [].
Proof.
  intros Hnd Hm.
  assert (forall r, call m s = (r, s) ->
            _dataSources (call m s).2 = _dataSources s ->
            new_entries s (call m s).2 = []) as Hsame.
  { intros r -> _. apply new_entries_same. }
  assert (forall v es arr',
            call m s =
              (Normal v, logged_all es (after_pass (with_dataSources arr' s))) ->
            arr' ≠ _dataSources s ->
            _dataSources (call m s).2 = _dataSources s ->
            new_entries s (call m s).2 = []) as Hmoved.
  { intros v es arr' -> Hne Heq. simpl in Heq.
    by rewrite logged_all_dataSources in Heq. }
  assert (forall v t,
            call m s =
              (Normal v,
               {| _dataSources := []; objects := objects s;
                  trace := trace s
                           ++ removeAll_trace t (_dataSources s);
                  destroyed := destroyed s |})
            \/ call m s =
              (Normal v,
               {| _dataSources := []; objects := objects s;
                  trace := trace s
                           ++ removeAll_trace t (_dataSources s);
                  destroyed := true |}) ->
            _dataSources (call m s).2 = _dataSources s ->
            new_entries s (call m s).2 = []) as Hcleared.
  { intros v t [-> | ->] Heq; simpl in Heq; unfold new_entries;
      simpl; rewrite <- Heq; by rewrite app_nil_r, drop_all. }
  destruct m as [[d|] [i|]|[d|] b|b|d|d|[i|]| |[d|]|[d|]|[d|]|[d|]| | |];
    try done; cbn [call] in *;
    try (apply (Hsame _ eq_refl)).
  - (* add at an index *)
    destruct (Z_lt_le_dec i 0) as [Hlo|Hlo];
      [by apply (Hsame _ (add_below d i s Hlo))|].
    destruct (Z_lt_le_dec (length_of (_dataSources s)) i) as [Hhi|Hhi];
      [by apply (Hsame _ (add_above d i s Hhi))|].
    apply (Hmoved _ [_] _ (add_at d i s (conj Hlo Hhi))).
    intros Heq. apply (f_equal length) in Heq. unfold splice in Heq.
    rewrite !length_app, length_take, length_drop in Heq. simpl in Heq. lia.
  - (* add on top *)
    apply (Hmoved _ [_] _ (add_append d s)).
    intros Heq. apply (f_equal length) in Heq.
    rewrite length_app in Heq. simpl in Heq. lia.
  - (* remove *)
    destruct (decide (d ∈ _dataSources s)) as [Hd|Hd].
    + destruct (Array_indexOf_member _ _ Hd) as (k & Hk & Hl & _).
      apply (Hmoved (VBool true)
               (raiseEvent dataSourceRemoved [VRef d; VNum (Z.of_nat k)]
                :: if defaultValue b true then [destroyCall d] else [])
               (delete k (_dataSources s))).
      * rewrite (remove_member _ _ _ k) by done.
        by destruct (defaultValue b true).
      * intros Heq. apply (f_equal length) in Heq.
        rewrite length_delete in Heq by eauto.
        apply lookup_lt_Some in Hl. lia.
    + apply (Hsame (Normal (VBool false))). apply remove_absent.
      by apply indexOf_from_notin.
  - (* removeAll *)
    apply (Hcleared VUndefined (defaultValue b true)). left.
    apply removeAll_spec.
  - (* raise *)
    destruct (decide (d ∈ _dataSources s)) as [Hd|Hd];
      [|by apply (Hsame (Throw not_a_member)), reorder_absent].
    destruct (Array_indexOf_member _ _ Hd) as (k & Hk & Hl & _).
    destruct (decide (Z.of_nat k = length_of (_dataSources s) - 1)) as [Ht|Ht];
      [by apply (Hsame _ (raise_top d s k Hk Ht))|].
    destruct (lookup_lt_is_Some_2 (_dataSources s) (S k)) as [e He].
    { apply lookup_lt_Some in Hl. unfold length_of in Ht. lia. }
    apply (Hmoved _ [_] _ (raise_inner d e s k Hk He)).
    intros Heq. apply (f_equal (fun l => l !! k)) in Heq.
    rewrite list_lookup_insert_ne, list_lookup_insert_eq, Hl in Heq
      by (eauto using lookup_lt_Some; lia).
    injection Heq as ->.
    pose proof (NoDup_lookup _ _ _ _ Hnd Hl He). lia.
  - (* lower *)
    destruct (decide (d ∈ _dataSources s)) as [Hd|Hd];
      [|by apply (Hsame (Throw not_a_member)), reorder_absent].
    destruct (Array_indexOf_member _ _ Hd) as (k & Hk & Hl & _).
    destruct k as [|k]; [by apply (Hsame _ (lower_bottom d s Hk))|].
    destruct (lookup_lt_is_Some_2 (_dataSources s) k) as [e He].
    { apply lookup_lt_Some in Hl. lia. }
    apply (Hmoved _ [_] _ (lower_inner d e s k Hk He)).
    intros Heq. apply (f_equal (fun l => l !! k)) in Heq.
    rewrite list_lookup_insert_eq, He in Heq
      by (rewrite length_insert; eauto using lookup_lt_Some).
    injection Heq as ->.
    pose proof (NoDup_lookup _ _ _ _ Hnd Hl He). lia.
  - (* raiseToTop *)
    destruct (decide (d ∈ _dataSources s)) as [Hd|Hd];
      [|by apply (Hsame (Throw not_a_member)), reorder_absent].
    destruct (Array_indexOf_member _ _ Hd) as (k & Hk & Hl & _).
    destruct (decide (Z.of_nat k = length_of (_dataSources s) - 1)) as [Ht|Ht];
      [by apply (Hsame _ (raiseToTop_top d s k Hk Ht))|].
    apply (Hmoved _ [_] _ (raiseToTop_inner d s k Hk Ht)).
    intros Heq. pose proof (lookup_lt_Some _ _ _ Hl) as Hlt.
    assert (length (delete k (_dataSources s))
            = (length (_dataSources s) - 1)%nat) as Hlen
      by (apply length_delete; eauto).
    apply (f_equal (fun l => l !! (length (_dataSources s) - 1)%nat)) in Heq.
    rewrite lookup_app_r, Hlen, Nat.sub_diag in Heq by lia. simpl in Heq.
    symmetry in Heq. pose proof (NoDup_lookup _ _ _ _ Hnd Hl Heq).
    unfold length_of in Ht. lia.
  - (* lowerToBottom *)
    destruct (decide (d ∈ _dataSources s)) as [Hd|Hd];
      [|by apply (Hsame (Throw not_a_member)), reorder_absent].
    destruct (Array_indexOf_member _ _ Hd) as (k & Hk & Hl & _).
    destruct k as [|k]; [by apply (Hsame _ (lowerToBottom_bottom d s Hk))|].
    apply (Hmoved _ [_] _ (lowerToBottom_inner d s k Hk)).
    intros Heq. apply (f_equal (fun l => l !! 0%nat)) in Heq.
    simpl in Heq. symmetry in Heq.
    pose proof (NoDup_lookup _ _ _ _ Hnd Hl Heq). lia.
  - (* destroy *)
    apply (Hcleared VUndefined true). right.
    unfold destroy, bind. by rewrite removeAll_spec.
Qed.

(** The general form, with a data source's place taken as its first slot:
    when a member's [show] differs from its defined shadow, a reorder
    call that finds nothing to move returns with the state exactly as it
    was: no stored index and no shadow [_show] changes, and no event, moved
    or shown-or-hidden, is raised.  The change stays pending.  It is
    reported by the next successful call that changes the array, if that
    data source is still in it: the call raises the shown-or-hidden event
    for it, with the index the pass stored (one of its slots) and its
    [show].  ([removeAll] runs no pass, and [remove] of that data source
    runs it without it.)  And it is reported by no other call: while the
    array holds no data source twice, a call of a public method that leaves
    the array as it was raises no event at all. *)
Theorem noop_reorder_skips_pass m s g :
  noop_reorder m s ->
  g ∈ _dataSources s -> Is_true (pending (objects s) g) ->
  call m s = (Normal VUndefined, s)
  /\ (forall m' v s',
        call m' s = (Normal v, s') ->
        _dataSources s' ≠ _dataSources s ->
        g ∈ _dataSources s' ->
        exists k : nat,
          _dataSources s' !! k = Some g
          /\ _dataSourceIndex (objects s' g) = Some (Z.of_nat k)
          /\ (raiseEvent dataSourceShownOrHidden
                [VRef g; VNum (Z.of_nat k); VBool (show (objects s g))],
              _dataSources s')
             ∈ new_entries s s')
  /\ (NoDup (_dataSources s) ->
      forall m',
        m' ≠ m_update ->
        _dataSources (call m' s).2 = _dataSources s ->
        new_entries s (call m' s).2 = []).
Proof.
  intros Hm Hg Hp.
  split; [|split; [|intros Hnd m'; by apply same_array_no_entries]].
  - destruct m as [| | | | | | |[d|]|[d|]|[d|]|[d|]| | |]; try done;
      cbn [call noop_reorder] in *.
    + destruct Hm as [Hd Htop].
      destruct (Array_indexOf_member _ _ Hd) as (k & Hk & _).
      apply (raise_top d s k Hk). by rewrite <- Hk.
    + by apply lower_bottom.
    + destruct Hm as [Hd Htop].
      destruct (Array_indexOf_member _ _ Hd) as (k & Hk & _).
      apply (raiseToTop_top d s k Hk). by rewrite <- Hk.
    + by apply lowerToBottom_bottom.
  - intros m' v s' Hcall Hchanged Hg'.
    destruct (call_cases m' s)
      as [[r Hr]|[(arr' & es & v' & Hr & _)|(v' & s'' & Hr & Hnil & _)]];
      rewrite Hr in Hcall; injection Hcall as _ Hs'; subst s'.
    + done.
    + rewrite logged_all_dataSources in Hg' |- *. simpl in Hg'.
      destruct (pass_reports_pending arr' (objects s) g Hg' Hp)
        as (k & Hk & Hi & Hin).
      exists k. split; [done|].
      split; [by rewrite logged_all_objects|].
      unfold new_entries. rewrite logged_all_trace. simpl.
      rewrite <- app_assoc, drop_app_length.
      apply elem_of_app. by left.
    + rewrite Hnil in Hg'. by apply elem_of_nil in Hg'.
Qed.

Lemma noop_reorder_skips_pass_witness :
  call (m_raiseToTop (Some C)) collection_ABC_B_shown
  = (Normal VUndefined, collection_ABC_B_shown)
  /\ (forall m' v s',
        call m' collection_ABC_B_shown = (Normal v, s') ->
        _dataSources s' ≠ [A; B; C] ->
        B ∈ _dataSources s' ->
        exists k : nat,
          _dataSources s' !! k = Some B
          /\ _dataSourceIndex (objects s' B) = Some (Z.of_nat k)
          /\ (raiseEvent dataSourceShownOrHidden
                [VRef B; VNum (Z.of_nat k); VBool true],
              _dataSources s')
             ∈ new_entries collection_ABC_B_shown s')
  /\ (NoDup [A; B; C] ->
      forall m',
        m' ≠ m_update ->
        _dataSources (call m' collection_ABC_B_shown).2 = [A; B; C] ->
        new_entries collection_ABC_B_shown (call m' collection_ABC_B_shown).2
        = []).
Proof.
  apply (noop_reorder_skips_pass (m_raiseToTop (Some C))
           collection_ABC_B_shown B).
  - split; [change (C ∈ [A; B; C]); compute_done|reflexivity].
  - change (B ∈ [A; B; C]). compute_done.
  - vm_compute. exact I.
Defined.

(** On a duplicate-free array the data source in the top slot has the last
    index as its first slot, and the one in the bottom slot of any array
    has index 0. *)
Lemma at_boundary_noop_reorder m s :
  NoDup (_dataSources s) -> at_boundary m s -> noop_reorder m s.
Proof.
  intros Hnd Hm.
  assert (forall d, list.last (_dataSources s) = Some d ->
            d ∈ _dataSources s
            /\ Array_indexOf (_dataSources s) (Some d)
               = length_of (_dataSources s) - 1) as Htop.
  { intros d Hlast. rewrite last_lookup in Hlast.
    pose proof (lookup_lt_Some _ _ _ Hlast) as Hlt.
    split; [apply list_elem_of_lookup; eauto|].
    rewrite (Array_indexOf_NoDup _ _ _ Hnd Hlast). unfold length_of. lia. }
  assert (forall d, head (_dataSources s) = Some d ->
            Array_indexOf (_dataSources s) (Some d) = 0) as Hbottom.
  { intros d Hhead. destruct (_dataSources s) as [|x l]; [done|].
    injection Hhead as ->. simpl. by rewrite decide_True. }
  destruct m as [| | | | | | |[d|]|[d|]|[d|]|[d|]| | |]; try done;
    cbn [at_boundary noop_reorder] in *; auto.
Qed.

(** C10, counterexample: on [[A, B, A]], reached by three calls of [add],
    with B's [show] set to [true] since, A is in the top slot, but
    [raise(A)] finds A at index 0, exchanges slots 0 and 1, runs the pass
    and raises the shown-or-hidden event for B and a "moved" event. *)
Lemma boundary_reorder_changes_nothing_fails :
  ~ boundary_reorder_changes_nothing.
Proof.
  intros H.
  assert (reachable collection_ABA_B_shown) as Hs.
  { eapply reachable_step; [apply reachable_after; constructor|].
    apply step_show. }
  specialize (H (m_raise (Some A)) collection_ABA_B_shown B Hs eq_refl).
  assert (B ∈ _dataSources collection_ABA_B_shown) as HB
    by (change (B ∈ [A; B; A]); compute_done).
  specialize (H HB ltac:(vm_compute; exact I)).
  apply (f_equal (fun r => map fst (trace r.2))) in H.
  vm_compute in H. discriminate H.
Qed.

(** C10, amended: on a collection whose array holds no data source twice,
    when a member's [show] differs from its defined shadow, [raise] or
    [raiseToTop] of the data source in the top slot and [lower] or
    [lowerToBottom] of the one in the bottom slot return with the state
    exactly as it was: no stored index and no shadow [_show] changes, and
    no event, moved or shown-or-hidden, is raised.  The change stays
    pending.  It is reported by the next successful call that changes the
    array, if that data source is still in it: the call raises the
    shown-or-hidden event for it, with the index the pass stored and its
    [show].  ([removeAll] runs no pass, and [remove] of that data source
    runs it without it.)  And it is reported by no other call: a call of a
    public method that leaves the array as it was raises no event at
    all. *)
Theorem boundary_reorder_skips_pass m s g :
  NoDup (_dataSources s) -> at_boundary m s ->
  g ∈ _dataSources s -> Is_true (pending (objects s) g) ->
  call m s = (Normal VUndefined, s)
  /\ (forall m' v s',
        call m' s = (Normal v, s') ->
        _dataSources s' ≠ _dataSources s ->
        g ∈ _dataSources s' ->
        exists k : nat,
          _dataSources s' !! k = Some g
          /\ _dataSourceIndex (objects s' g) = Some (Z.of_nat k)
          /\ (raiseEvent dataSourceShownOrHidden
                [VRef g; VNum (Z.of_nat k); VBool (show (objects s g))],
              _dataSources s')
             ∈ new_entries s s')
  /\ (forall m',
        m' ≠ m_update ->
        _dataSources (call m' s).2 = _dataSources s ->
        new_entries s (call m' s).2 = []).
Proof.
  intros Hnd Hm Hg Hp.
  destruct (noop_reorder_skips_pass m s g
              (at_boundary_noop_reorder m s Hnd Hm) Hg Hp)
    as (Hsame & Hnext & Hother).
  split; [done|]. split; [done|]. by apply Hother.
Qed.

Lemma boundary_reorder_skips_pass_witness :
  call (m_raise (Some C)) collection_ABC_B_shown
  = (Normal VUndefined, collection_ABC_B_shown)
  /\ (forall m' v s',
        call m' collection_ABC_B_shown = (Normal v, s') ->
        _dataSources s' ≠ [A; B; C] ->
        B ∈ _dataSources s' ->
        exists k : nat,
          _dataSources s' !! k = Some B
          /\ _dataSourceIndex (objects s' B) = Some (Z.of_nat k)
          /\ (raiseEvent dataSourceShownOrHidden
                [VRef B; VNum (Z.of_nat k); VBool true],
              _dataSources s')
             ∈ new_entries collection_ABC_B_shown s')
  /\ (forall m',
        m' ≠ m_update ->
        _dataSources (call m' collection_ABC_B_shown).2 = [A; B; C] ->
        new_entries collection_ABC_B_shown (call m' collection_ABC_B_shown).2
        = []).
Proof.
  apply (boundary_reorder_skips_pass (m_raise (Some C))
           collection_ABC_B_shown B).
  - change (NoDup [A; B; C]). compute_done.
  - reflexivity.
  - change (B ∈ [A; B; C]). compute_done.
  - vm_compute. exact I.
Defined.

(** * Further properties of the collection *)

(** ** Every call, with the state it leaves *)

(** A property holds of every call when it holds of a call that leaves
    the state as it was and of the nine ways a call changes it. *)
Lemma call_elim (P : Method -> State -> Completion value * State -> Prop) :
  (forall m s r, call m s = (r, s) -> P m s (r, s)) ->
  (forall d index s (k : nat),
     valid_index index s -> Z.of_nat k = insertion_index index s ->
     P (m_add (Some d) index) s
       (Normal VUndefined,
        logged (raiseEvent dataSourceAdded [VRef d; VNum (Z.of_nat k)])
          (after_pass
             (with_dataSources
                (take k (_dataSources s) ++ d :: drop k (_dataSources s)) s)))) ->
  (forall d b s (k : nat),
     Array_indexOf (_dataSources s) (Some d) = Z.of_nat k ->
     P (m_remove (Some d) b) s
       (Normal (VBool true),
        maybe_destroyed (defaultValue b true) d
          (logged (raiseEvent dataSourceRemoved [VRef d; VNum (Z.of_nat k)])
             (after_pass (with_dataSources (delete k (_dataSources s)) s))))) ->
  (forall b s,
     P (m_removeAll b) s
       (Normal VUndefined,
        {| _dataSources := []; objects := objects s;
           trace := trace s
                    ++ removeAll_trace (defaultValue b true) (_dataSources s);
           destroyed := destroyed s |})) ->
  (forall d e s (k : nat),
     Array_indexOf (_dataSources s) (Some d) = Z.of_nat k ->
     _dataSources s !! S k = Some e ->
     P (m_raise (Some d)) s
       (Normal VUndefined,
        logged (raiseEvent dataSourceMoved
                  [VRef d; VNum (Z.of_nat k + 1); VNum (Z.of_nat k)])
          (after_pass
             (with_dataSources
                (<[S k := d]> (<[k := e]> (_dataSources s))) s)))) ->
  (forall d e s (k : nat),
     Array_indexOf (_dataSources s) (Some d) = Z.of_nat (S k) ->
     _dataSources s !! k = Some e ->
     P (m_lower (Some d)) s
       (Normal VUndefined,
        logged (raiseEvent dataSourceMoved
                  [VRef d; VNum (Z.of_nat (S k) - 1); VNum (Z.of_nat (S k))])
          (after_pass
             (with_dataSources
                (<[k := d]> (<[S k := e]> (_dataSources s))) s)))) ->
  (forall d s (k : nat),
     Array_indexOf (_dataSources s) (Some d) = Z.of_nat k ->
     Z.of_nat k ≠ length_of (_dataSources s) - 1 ->
     P (m_raiseToTop (Some d)) s
       (Normal VUndefined,
        logged (raiseEvent dataSourceMoved
                  [VRef d; VNum (length_of (_dataSources s) - 1);
                   VNum (Z.of_nat k)])
          (after_pass
             (with_dataSources (delete k (_dataSources s) ++ [d]) s)))) ->
  (forall d s (k : nat),
     Array_indexOf (_dataSources s) (Some d) = Z.of_nat (S k) ->
     P (m_lowerToBottom (Some d)) s
       (Normal VUndefined,
        logged (raiseEvent dataSourceMoved
                  [VRef d; VNum 0; VNum (Z.of_nat (S k))])
          (after_pass
             (with_dataSources (d :: delete (S k) (_dataSources s)) s)))) ->
  (forall s,
     P m_destroy s
       (Normal VUndefined,
        {| _dataSources := []; objects := objects s;
           trace := trace s ++ removeAll_trace true (_dataSources s);
           destroyed := true |})) ->
  (forall s, P m_update s (Normal VUndefined, after_pass s)) ->
  forall m s, P m s (call m s).
Proof.
  intros Hsame Hadd Hremove HremoveAll Hraise Hlower Htop Hbottom Hdestroy
    Hupdate m s.
  assert (forall r, call m s = (r, s) -> P m s (call m s)) as Hsame'.
  { intros r Hr. rewrite Hr. by apply Hsame. }
  destruct m as [[d|] [i|]|[d|] b|b|d|d|[i|]| |[d|]|[d|]|[d|]|[d|]| | |];
    try (by apply (Hsame' _ eq_refl)); cbn [call] in *.
  - destruct (Z_lt_le_dec i 0) as [Hlo|Hlo];
      [by apply (Hsame' _ (add_below d i s Hlo))|].
    destruct (Z_lt_le_dec (length_of (_dataSources s)) i) as [Hhi|Hhi];
      [by apply (Hsame' _ (add_above d i s Hhi))|].
    rewrite add_at by lia.
    assert (splice (_dataSources s) i 0 [d]
            = take (Z.to_nat i) (_dataSources s)
              ++ d :: drop (Z.to_nat i) (_dataSources s)) as ->.
    { rewrite <- (Z2Nat.id i) at 1 by lia. apply splice_insert.
      unfold length_of in Hhi. lia. }
    pose proof (Hadd d (Some i) s (Z.to_nat i)) as H.
    rewrite Z2Nat.id in H by lia. apply H; simpl; lia.
  - rewrite add_append.
    rewrite <- (take_ge (_dataSources s) (length (_dataSources s))) at 2
      by lia.
    replace [d] with (d :: drop (length (_dataSources s)) (_dataSources s))
      by (by rewrite drop_all).
    by apply Hadd.
  - destruct (decide (d ∈ _dataSources s)) as [Hd|Hd].
    + destruct (Array_indexOf_member _ _ Hd) as (k & Hk & _).
      rewrite (remove_member _ _ _ k) by done. by apply Hremove.
    + apply (Hsame' (Normal (VBool false))). apply remove_absent.
      by apply indexOf_from_notin.
  - rewrite removeAll_spec. apply HremoveAll.
  - destruct (decide (d ∈ _dataSources s)) as [Hd|Hd];
      [|by apply (Hsame' (Throw not_a_member)), reorder_absent].
    destruct (Array_indexOf_member _ _ Hd) as (k & Hk & Hl & _).
    destruct (decide (Z.of_nat k = length_of (_dataSources s) - 1)) as [Ht|Ht];
      [by apply (Hsame' _ (raise_top d s k Hk Ht))|].
    destruct (lookup_lt_is_Some_2 (_dataSources s) (S k)) as [e He].
    { apply lookup_lt_Some in Hl. unfold length_of in Ht. lia. }
    rewrite (raise_inner d e s k Hk He). by apply Hraise.
  - destruct (decide (d ∈ _dataSources s)) as [Hd|Hd];
      [|by apply (Hsame' (Throw not_a_member)), reorder_absent].
    destruct (Array_indexOf_member _ _ Hd) as (k & Hk & Hl & _).
    destruct k as [|k]; [by apply (Hsame' _ (lower_bottom d s Hk))|].
    destruct (lookup_lt_is_Some_2 (_dataSources s) k) as [e He].
    { apply lookup_lt_Some in Hl. lia. }
    rewrite (lower_inner d e s k Hk He). by apply Hlower.
  - destruct (decide (d ∈ _dataSources s)) as [Hd|Hd];
      [|by apply (Hsame' (Throw not_a_member)), reorder_absent].
    destruct (Array_indexOf_member _ _ Hd) as (k & Hk & Hl & _).
    destruct (decide (Z.of_nat k = length_of (_dataSources s) - 1)) as [Ht|Ht];
      [by apply (Hsame' _ (raiseToTop_top d s k Hk Ht))|].
    rewrite (raiseToTop_inner d s k Hk Ht). by apply Htop.
  - destruct (decide (d ∈ _dataSources s)) as [Hd|Hd];
      [|by apply (Hsame' (Throw not_a_member)), reorder_absent].
    destruct (Array_indexOf_member _ _ Hd) as (k & Hk & Hl & _).
    destruct k as [|k]; [by apply (Hsame' _ (lowerToBottom_bottom d s Hk))|].
    rewrite (lowerToBottom_inner d s k Hk). by apply Hbottom.
  - unfold destroy, bind. rewrite removeAll_spec. apply Hdestroy.
  - unfold bind. rewrite _update_spec. apply Hupdate.
Qed.

(** ** Lookups *)

Lemma indexOf_from_app_fresh l1 l2 d : forall i,
  d ∉ l1 -> indexOf_from (l1 ++ d :: l2) d i = i + Z.of_nat (length l1).
Proof.
  induction l1 as [|x l1 IH]; intros i Hd; simpl.
  - rewrite decide_True by done. lia.
  - apply not_elem_of_cons in Hd as [Hne Hd].
    rewrite decide_False by done. rewrite IH by done. lia.
Qed.

Lemma not_in_take_lookup (l : list handle) d (k j : nat) :
  d ∉ take k l -> (j < k)%nat -> l !! j ≠ Some d.
Proof.
  intros Hd Hj Hl. apply Hd. apply list_elem_of_lookup. exists j.
  by rewrite lookup_take_lt.
Qed.

(** X1: [indexOf] and [contains] leave the state as it was.  For a data
    source in the array [indexOf] returns the first slot that holds it and
    [contains] returns [true]; for one that is not in it, and for
    [undefined], they return -1 and [false]. *)
Theorem indexOf_first_slot s d :
  (d ∉ _dataSources s ->
   indexOf (Some d) s = (Normal (VNum (-1)), s)
   /\ contains (Some d) s = (Normal (VBool false), s))
  /\ (d ∈ _dataSources s ->
      exists k : nat,
        indexOf (Some d) s = (Normal (VNum (Z.of_nat k)), s)
        /\ contains (Some d) s = (Normal (VBool true), s)
        /\ _dataSources s !! k = Some d
        /\ forall j : nat, (j < k)%nat -> _dataSources s !! j ≠ Some d)
  /\ indexOf None s = (Normal (VNum (-1)), s)
  /\ contains None s = (Normal (VBool false), s).
Proof.
  split; [|split; [|done]].
  - intros Hd. unfold indexOf, contains, bind, get_dataSources, ret.
    cbv beta iota. unfold Array_indexOf. by rewrite indexOf_from_notin.
  - intros Hd. destruct (Array_indexOf_member _ _ Hd) as (k & Hk & Hl & Hn).
    exists k. unfold indexOf, contains, bind, get_dataSources, ret.
    cbv beta iota. rewrite Hk.
    split; [done|]. split.
    { by destruct (Z.eqb_spec (Z.of_nat k) (-1)); [lia|]. }
    split; [done|]. intros j Hj. by apply (not_in_take_lookup _ _ k).
Qed.

Lemma indexOf_first_slot_witness :
  (indexOf (Some 7%nat) collection_ABC = (Normal (VNum (-1)), collection_ABC)
   /\ contains (Some 7%nat) collection_ABC
      = (Normal (VBool false), collection_ABC))
  /\ exists k : nat,
       indexOf (Some B) collection_ABC
       = (Normal (VNum (Z.of_nat k)), collection_ABC)
       /\ contains (Some B) collection_ABC
          = (Normal (VBool true), collection_ABC)
       /\ [A; B; C] !! k = Some B
       /\ forall j : nat, (j < k)%nat -> [A; B; C] !! j ≠ Some B.
Proof.
  split.
  - destruct (indexOf_first_slot collection_ABC 7%nat) as (Habsent & _).
    apply Habsent. change (7%nat ∉ [A; B; C]). compute_done.
  - destruct (indexOf_first_slot collection_ABC B) as (_ & Hmember & _).
    apply Hmember. change (B ∈ [A; B; C]). compute_done.
Defined.

(** X2: [get] leaves the state as it was.  Without an index it throws
    "index is required."; with the index of a slot it returns the data
    source in that slot; with an index below 0 or from the length on it
    returns [undefined] and does not throw. *)
Theorem get_in_and_out_of_range s :
  get None s = (Throw (DeveloperError "index is required."), s)
  /\ (forall (k : nat) d,
        _dataSources s !! k = Some d ->
        get (Some (Z.of_nat k)) s = (Normal (VRef d), s))
  /\ (forall i,
        i < 0 \/ length_of (_dataSources s) <= i ->
        get (Some i) s = (Normal VUndefined, s)).
Proof.
  split; [done|]. split.
  - intros k d Hk. unfold get, bind, get_dataSources, ret. cbv beta iota.
    by rewrite Array_get_nat, Hk.
  - intros i Hi. unfold get, bind, get_dataSources, ret, Array_get.
    cbv beta iota. destruct (Z.ltb_spec i 0); [done|].
    destruct Hi as [Hi|Hi]; [lia|].
    rewrite lookup_ge_None_2; [done|]. unfold length_of in Hi. lia.
Qed.

Lemma get_in_and_out_of_range_witness :
  get (Some 1) collection_ABC = (Normal (VRef B), collection_ABC)
  /\ get (Some 3) collection_ABC = (Normal VUndefined, collection_ABC)
  /\ get (Some (-1)) collection_ABC = (Normal VUndefined, collection_ABC).
Proof.
  destruct (get_in_and_out_of_range collection_ABC) as (_ & Hin & Hout).
  split; [apply (Hin 1%nat B); reflexivity|].
  split; apply Hout; [right|left]; vm_compute; congruence.
Defined.

(** X3: [get] and [indexOf] are inverse to each other where they can be:
    [get] of the index that [indexOf] returns for a member is that
    member; and when the array holds no data source twice, [indexOf] of
    what [get] returns for a slot is that slot. *)
Theorem get_indexOf_round_trip s :
  (forall d, d ∈ _dataSources s ->
     exists i,
       indexOf (Some d) s = (Normal (VNum i), s)
       /\ get (Some i) s = (Normal (VRef d), s))
  /\ (NoDup (_dataSources s) ->
      forall (k : nat), (k < length (_dataSources s))%nat ->
        exists d,
          get (Some (Z.of_nat k)) s = (Normal (VRef d), s)
          /\ indexOf (Some d) s = (Normal (VNum (Z.of_nat k)), s)).
Proof.
  split.
  - intros d Hd.
    destruct (proj1 (proj2 (indexOf_first_slot s d)) Hd)
      as (k & Hi & _ & Hl & _).
    exists (Z.of_nat k). split; [done|].
    by apply (proj1 (proj2 (get_in_and_out_of_range s))).
  - intros Hnd k Hk.
    destruct (lookup_lt_is_Some_2 _ _ Hk) as [d Hd]. exists d.
    split; [by apply (proj1 (proj2 (get_in_and_out_of_range s)))|].
    unfold indexOf, bind, get_dataSources, ret. cbv beta iota.
    by rewrite (Array_indexOf_NoDup _ _ k).
Qed.

Lemma get_indexOf_round_trip_witness :
  (exists i,
     indexOf (Some C) collection_ABC = (Normal (VNum i), collection_ABC)
     /\ get (Some i) collection_ABC = (Normal (VRef C), collection_ABC))
  /\ exists d,
       get (Some (Z.of_nat 2)) collection_ABC
       = (Normal (VRef d), collection_ABC)
       /\ indexOf (Some d) collection_ABC
          = (Normal (VNum (Z.of_nat 2)), collection_ABC).
Proof.
  destruct (get_indexOf_round_trip collection_ABC) as [Hto Hfrom].
  split.
  - apply Hto. change (C ∈ [A; B; C]). compute_done.
  - apply Hfrom; [change (NoDup [A; B; C]); compute_done|].
    vm_compute. lia.
Defined.

(** ** add and remove, followed by lookups *)

Lemma add_state d index s :
  valid_index index s ->
  exists k : nat,
    Z.of_nat k = insertion_index index s
    /\ (k <= length (_dataSources s))%nat
    /\ add (Some d) index s =
       (Normal VUndefined,
        logged (raiseEvent dataSourceAdded [VRef d; VNum (Z.of_nat k)])
          (after_pass
             (with_dataSources
                (take k (_dataSources s) ++ d :: drop k (_dataSources s)) s))).
Proof.
  intros Hv. destruct index as [i|]; simpl in Hv.
  - exists (Z.to_nat i). unfold length_of in Hv.
    split; [simpl; lia|]. split; [lia|].
    rewrite add_at by done. rewrite Z2Nat.id by lia.
    assert (splice (_dataSources s) i 0 [d]
            = take (Z.to_nat i) (_dataSources s)
              ++ d :: drop (Z.to_nat i) (_dataSources s)) as ->; [|done].
    rewrite <- (Z2Nat.id i) at 1 by lia. apply splice_insert. lia.
  - exists (length (_dataSources s)). split; [done|]. split; [done|].
    by rewrite add_append, take_ge, drop_all.
Qed.

(** X4: after a successful [add], [getLength] is one more than before,
    [get] at the insertion index returns the added data source,
    [contains] of it returns [true], and the members are the former ones
    and the added one.  When the data source was not a member before,
    [indexOf] of it returns the insertion index. *)
Theorem add_then_lookups d index s :
  valid_index index s ->
  exists s',
    add (Some d) index s = (Normal VUndefined, s')
    /\ getLength s'
       = (Normal (VNum (length_of (_dataSources s) + 1)), s')
    /\ get (Some (insertion_index index s)) s' = (Normal (VRef d), s')
    /\ contains (Some d) s' = (Normal (VBool true), s')
    /\ (forall x, x ∈ _dataSources s' <-> x = d \/ x ∈ _dataSources s)
    /\ (d ∉ _dataSources s ->
        indexOf (Some d) s'
        = (Normal (VNum (insertion_index index s)), s')).
Proof.
  intros Hv. destruct (add_state d index s Hv) as (k & Hk & Hle & ->).
  eexists. split; [done|].
  set (arr' := take k (_dataSources s) ++ d :: drop k (_dataSources s)).
  assert (arr' !! k = Some d) as Hslot.
  { unfold arr'. rewrite lookup_app_r by (rewrite length_take; lia).
    rewrite length_take.
    by replace (k - k `min` length (_dataSources s))%nat with 0%nat by lia. }
  assert (forall x, x ∈ arr' <-> x = d \/ x ∈ _dataSources s) as Hmem.
  { intros x. unfold arr'. rewrite elem_of_app, elem_of_cons.
    rewrite <- (take_drop k (_dataSources s)) at 3. rewrite elem_of_app.
    tauto. }
  split.
  { unfold getLength, bind, get_dataSources, ret. cbv beta iota.
    cbn [logged after_pass with_dataSources _dataSources]. fold arr'.
    do 3 f_equal. unfold length_of, arr'.
    rewrite length_app, length_take. simpl. rewrite length_drop. lia. }
  split.
  { rewrite <- Hk. by apply (proj1 (proj2 (get_in_and_out_of_range _))). }
  split.
  { destruct (proj1 (proj2 (indexOf_first_slot
                (logged (raiseEvent dataSourceAdded [VRef d; VNum (Z.of_nat k)])
                   (after_pass (with_dataSources arr' s))) d)))
      as (j & _ & Hc & _); [|done].
    cbn [logged after_pass with_dataSources _dataSources]. apply Hmem. by left. }
  split; [done|].
  intros Hd. unfold indexOf, bind, get_dataSources, ret. cbv beta iota.
  cbn [logged after_pass with_dataSources _dataSources Array_indexOf].
  fold arr'. unfold arr'. rewrite indexOf_from_app_fresh.
  - rewrite length_take, <- Hk. do 3 f_equal. lia.
  - intros Hin. apply Hd. eapply elem_of_sublist; [exact Hin|apply sublist_take].
Qed.

Lemma add_then_lookups_witness :
  exists s',
    add (Some 7%nat) (Some 1) collection_ABC = (Normal VUndefined, s')
    /\ getLength s' = (Normal (VNum (3 + 1)), s')
    /\ get (Some 1) s' = (Normal (VRef 7%nat), s')
    /\ contains (Some 7%nat) s' = (Normal (VBool true), s')
    /\ (forall x, x ∈ _dataSources s' <-> x = 7%nat \/ x ∈ [A; B; C])
    /\ (7%nat ∉ [A; B; C] ->
        indexOf (Some 7%nat) s' = (Normal (VNum 1), s')).
Proof.
  apply (add_then_lookups 7%nat (Some 1) collection_ABC).
  change (0 <= 1 <= 3). lia.
Defined.

(** X5: [add] with the current length as index does what [add] without
    an index does: same result, same state. *)
Theorem add_at_length_is_append d s :
  add (Some d) (Some (length_of (_dataSources s))) s = add (Some d) None s.
Proof.
  rewrite add_at by (unfold length_of; lia). rewrite add_append.
  unfold length_of. rewrite splice_insert by done.
  by rewrite take_ge, drop_all by lia.
Qed.

(** X6: [add] succeeds exactly when a data source is given and the index
    is omitted or lies in [[0, length]]; in every other case it throws a
    [DeveloperError]. *)
Theorem add_succeeds_iff_valid dataSource index s :
  ((exists v s', add dataSource index s = (Normal v, s'))
   <-> is_Some dataSource /\ valid_index index s)
  /\ ((exists message s',
         add dataSource index s = (Throw (DeveloperError message), s'))
      <-> ~ (is_Some dataSource /\ valid_index index s)).
Proof.
  destruct dataSource as [d|].
  - assert (valid_index index s \/ ~ valid_index index s) as [Hv|Hv]
      by (destruct index; simpl; [lia|tauto]).
    + destruct (add_state d index s Hv) as (k & _ & _ & Hadd).
      rewrite Hadd. split.
      * split; [intros _; split; [by eexists|done]|intros _; by eexists _, _].
      * split; [intros (m & s' & [=])|].
        intros H. exfalso. apply H. split; [by eexists|done].
    + assert (exists message,
                add (Some d) index s = (Throw (DeveloperError message), s))
        as [message Hadd].
      { destruct index as [i|]; [|by destruct Hv]. simpl in Hv.
        destruct (Z_lt_le_dec i 0) as [Hlo|Hlo];
          [eexists; by apply add_below|].
        eexists. apply add_above. lia. }
      rewrite Hadd. split.
      * split; [intros (v & s' & [=])|intros [_ H]; done].
      * split; [intros _ [_ H]; done|intros _; by eexists _, _].
  - rewrite add_missing. split.
    + split; [intros (v & s' & [=])|intros [[x [=]] _]].
    + split; [intros _ [[x [=]] _]|intros _; by eexists _, _].
Qed.

(** X7: adding a data source that is not a member and then removing it
    without destroying gives back the array as it was; the "removed" event
    carries the index the "added" event carried, and no [destroy()] is
    called. *)
Theorem add_then_remove_restores d index s :
  d ∉ _dataSources s -> valid_index index s ->
  exists s1 s2,
    add (Some d) index s = (Normal VUndefined, s1)
    /\ remove (Some d) (Some false) s1 = (Normal (VBool true), s2)
    /\ _dataSources s2 = _dataSources s
    /\ list.last (trace s1)
       = Some (raiseEvent dataSourceAdded
                 [VRef d; VNum (insertion_index index s)], _dataSources s1)
    /\ list.last (trace s2)
       = Some (raiseEvent dataSourceRemoved
                 [VRef d; VNum (insertion_index index s)], _dataSources s)
    /\ destroy_calls (new_entries s s2) = [].
Proof.
  intros Hd Hv. destruct (add_state d index s Hv) as (k & Hk & Hle & ->).
  remember (logged (raiseEvent dataSourceAdded [VRef d; VNum (Z.of_nat k)])
              (after_pass
                 (with_dataSources
                    (take k (_dataSources s) ++ d :: drop k (_dataSources s))
                    s))) as s1 eqn:Hs1.
  assert (_dataSources s1
          = take k (_dataSources s) ++ d :: drop k (_dataSources s)) as Harr1
    by (by rewrite Hs1).
  assert (Array_indexOf (_dataSources s1) (Some d) = Z.of_nat k) as Hidx.
  { rewrite Harr1. cbn [Array_indexOf]. rewrite indexOf_from_app_fresh.
    - rewrite length_take. lia.
    - intros Hin. apply Hd.
      eapply elem_of_sublist; [exact Hin|apply sublist_take]. }
  assert (delete k (_dataSources s1) = _dataSources s) as Hback.
  { rewrite Harr1.
    rewrite <- (length_take_le (_dataSources s) k) at 1 by done.
    by rewrite delete_middle, take_drop. }
  exists s1. eexists. split; [done|].
  rewrite (remove_member d (Some false) s1 k Hidx).
  split; [done|]. cbn [defaultValue maybe_destroyed].
  split; [exact Hback|].
  split.
  { rewrite Hs1 at 1. cbn [logged trace]. rewrite last_snoc, Hk.
    by rewrite Hs1. }
  split.
  { cbn [logged trace after_pass with_dataSources _dataSources].
    by rewrite last_snoc, Hback, Hk. }
  unfold new_entries.
  cbn [logged trace after_pass with_dataSources _dataSources].
  rewrite Hs1 at 1. cbn [logged trace after_pass with_dataSources].
  rewrite <- !app_assoc, drop_app_length. unfold destroy_calls.
  rewrite !omap_app. unfold pass_trace.
  assert (forall arr objs l,
            omap (fun entry : Effect * list handle =>
                    match entry.1 with
                    | destroyCall d0 => Some d0
                    | raiseEvent _ _ => None
                    end) (map (shown_entry arr objs) l) = []) as Hpass.
  { intros arr objs l. induction l as [|x l IH]; [done|]. simpl. apply IH. }
  by rewrite !Hpass.
Qed.

Lemma add_then_remove_restores_witness :
  exists s1 s2,
    add (Some 7%nat) (Some 1) collection_ABC = (Normal VUndefined, s1)
    /\ remove (Some 7%nat) (Some false) s1 = (Normal (VBool true), s2)
    /\ _dataSources s2 = [A; B; C]
    /\ list.last (trace s1)
       = Some (raiseEvent dataSourceAdded [VRef 7%nat; VNum 1],
               _dataSources s1)
    /\ list.last (trace s2)
       = Some (raiseEvent dataSourceRemoved [VRef 7%nat; VNum 1], [A; B; C])
    /\ destroy_calls (new_entries collection_ABC s2) = [].
Proof.
  apply (add_then_remove_restores 7%nat (Some 1) collection_ABC).
  - change (7%nat ∉ [A; B; C]). compute_done.
  - change (0 <= 1 <= 3). lia.
Defined.

(** X8: [remove] of a member takes out its first slot only and keeps the
    others in their order: the array [l1 ++ d :: l2], with [d] not in
    [l1], becomes [l1 ++ l2].  Afterwards [contains] of the data source is
    [true] exactly when it was held in a second slot, so it is [false]
    when the array held no data source twice. *)
Theorem remove_takes_first_slot d destroy s :
  d ∈ _dataSources s ->
  exists l1 l2 s',
    _dataSources s = l1 ++ d :: l2 /\ (d ∉ l1)
    /\ remove (Some d) destroy s = (Normal (VBool true), s')
    /\ _dataSources s' = l1 ++ l2
    /\ getLength s' = (Normal (VNum (length_of (_dataSources s) - 1)), s')
    /\ contains (Some d) s' = (Normal (VBool (bool_decide (d ∈ l2))), s')
    /\ (NoDup (_dataSources s) ->
        contains (Some d) s' = (Normal (VBool false), s')).
Proof.
  intros Hd. destruct (Array_indexOf_member _ _ Hd) as (k & Hk & Hl & Hn).
  exists (take k (_dataSources s)), (drop (S k) (_dataSources s)).
  eexists. split; [by rewrite take_drop_middle|]. split; [done|].
  rewrite (remove_member d destroy s k Hk). split; [done|].
  set (s' := maybe_destroyed _ _ _).
  assert (_dataSources s'
          = take k (_dataSources s) ++ drop (S k) (_dataSources s)) as Harr.
  { unfold s'. destruct (defaultValue destroy true); simpl;
      by rewrite delete_take_drop. }
  split; [done|].
  assert (forall b,
            ((d ∈ take k (_dataSources s) ++ drop (S k) (_dataSources s))
             <-> b = true) ->
            contains (Some d) s' = (Normal (VBool b), s')) as Hcontains.
  { intros b Hb.
    destruct (indexOf_first_slot s' d) as (Habsent & Hmember & _).
    rewrite Harr in Habsent, Hmember. destruct b.
    - destruct Hmember as (j & _ & Hc & _); [by apply Hb|done].
    - apply Habsent. intros Hin. by apply Hb in Hin. }
  split.
  { unfold getLength, bind, get_dataSources, ret. cbv beta iota.
    rewrite Harr. do 3 f_equal. unfold length_of.
    pose proof (lookup_lt_Some _ _ _ Hl).
    rewrite length_app, length_take, length_drop. lia. }
  split.
  { apply Hcontains. rewrite elem_of_app.
    rewrite bool_decide_eq_true. tauto. }
  intros Hnd. apply Hcontains. split; [|done]. intros Hin. exfalso.
  rewrite <- (take_drop_middle _ _ _ Hl) in Hnd.
  apply list.NoDup_app in Hnd as (_ & Hdisj & Hnd2).
  apply list.NoDup_cons in Hnd2 as [Hd2 _].
  apply elem_of_app in Hin as [Hin|Hin]; [done|done].
Qed.

Lemma remove_takes_first_slot_witness :
  exists l1 l2 s',
    [A; B; C] = l1 ++ B :: l2 /\ (B ∉ l1)
    /\ remove (Some B) (Some false) collection_ABC = (Normal (VBool true), s')
    /\ _dataSources s' = l1 ++ l2
    /\ getLength s' = (Normal (VNum (3 - 1)), s')
    /\ contains (Some B) s' = (Normal (VBool (bool_decide (B ∈ l2))), s')
    /\ (NoDup [A; B; C] ->
        contains (Some B) s' = (Normal (VBool false), s')).
Proof.
  apply (remove_takes_first_slot B (Some false) collection_ABC).
  change (B ∈ [A; B; C]). compute_done.
Defined.

(** ** Moving a data source *)

Lemma swap_back (l : list handle) (i j : nat) a b :
  i ≠ j -> l !! i = Some a -> l !! j = Some b ->
  <[i := a]> (<[j := b]> (<[j := a]> (<[i := b]> l))) = l.
Proof.
  intros Hij Ha Hb.
  rewrite list_insert_insert_eq.
  rewrite (list_insert_insert_ne _ j i) by done.
  rewrite list_insert_insert_eq.
  rewrite (list_insert_id l j b) by done. by apply list_insert_id.
Qed.

Lemma swap_lookups (l : list handle) (i j : nat) a b :
  i ≠ j -> l !! i = Some a -> l !! j = Some b ->
  <[j := a]> (<[i := b]> l) !! j = Some a
  /\ <[j := a]> (<[i := b]> l) !! i = Some b
  /\ forall n : nat, n ≠ i -> n ≠ j -> <[j := a]> (<[i := b]> l) !! n = l !! n.
Proof.
  intros Hij Ha Hb.
  pose proof (lookup_lt_Some _ _ _ Ha). pose proof (lookup_lt_Some _ _ _ Hb).
  split; [by rewrite list_lookup_insert_eq by (by rewrite length_insert)|].
  split.
  - rewrite list_lookup_insert_ne by done. by rewrite list_lookup_insert_eq.
  - intros n Hi Hj. by rewrite !list_lookup_insert_ne.
Qed.

(** X9: [raiseToTop] of a member that is not at the last index takes out
    its first slot and appends it: the others keep their order, the data
    source is last, and the one "moved" event, raised last, carries the
    data source, the last index and the old index.  When the array holds
    no data source twice, a second [raiseToTop] of it changes nothing.  On
    [[A, C, B]], [raiseToTop(C)] gives [[A, B, C]] and the event
    (C, 2, 1). *)
Theorem raiseToTop_moves_to_end :
  (forall d s (k : nat),
     Array_indexOf (_dataSources s) (Some d) = Z.of_nat k ->
     Z.of_nat k ≠ length_of (_dataSources s) - 1 ->
     exists s',
       raiseToTop (Some d) s = (Normal VUndefined, s')
       /\ _dataSources s' = delete k (_dataSources s) ++ [d]
       /\ list.last (trace s')
          = Some (raiseEvent dataSourceMoved
                    [VRef d; VNum (length_of (_dataSources s) - 1);
                     VNum (Z.of_nat k)],
                  _dataSources s')
       /\ (NoDup (_dataSources s) ->
           raiseToTop (Some d) s' = (Normal VUndefined, s')))
  /\ (exists s',
        raiseToTop (Some C) collection_ACB = (Normal VUndefined, s')
        /\ _dataSources s' = [A; B; C]
        /\ new_entries collection_ACB s'
           = [(raiseEvent dataSourceMoved [VRef C; VNum 2; VNum 1],
               [A; B; C])]).
Proof.
  split; [|exists (raiseToTop (Some C) collection_ACB).2;
           split; [reflexivity|split; reflexivity]].
  intros d s k Hk Hne. eexists.
  rewrite (raiseToTop_inner d s k Hk Hne).
  split; [done|]. split; [done|].
  split; [cbn [logged trace]; by rewrite last_snoc|].
  intros Hnd.
  pose proof (Array_indexOf_lookup _ _ _ Hk) as Hl.
  pose proof (lookup_lt_Some _ _ _ Hl) as Hlt.
  assert (length (delete k (_dataSources s))
          = (length (_dataSources s) - 1)%nat) as Hlen
    by (apply length_delete; eauto).
  apply (raiseToTop_top d _ (length (_dataSources s) - 1)).
  - cbn [logged after_pass with_dataSources _dataSources].
    apply Array_indexOf_NoDup.
    + rewrite Permutation_app_comm. simpl.
      by rewrite <- (delete_Permutation _ _ _ Hl).
    + rewrite lookup_app_r by lia. by rewrite Hlen, Nat.sub_diag.
  - cbn [logged after_pass with_dataSources _dataSources].
    unfold length_of. rewrite length_app, Hlen. simpl. lia.
Qed.

Lemma raiseToTop_moves_to_end_witness :
  exists s',
    raiseToTop (Some A) collection_ABC = (Normal VUndefined, s')
    /\ _dataSources s' = delete 0%nat [A; B; C] ++ [A]
    /\ list.last (trace s')
       = Some (raiseEvent dataSourceMoved [VRef A; VNum (3 - 1); VNum 0],
               _dataSources s')
    /\ (NoDup [A; B; C] ->
        raiseToTop (Some A) s' = (Normal VUndefined, s')).
Proof.
  destruct raiseToTop_moves_to_end as [H _].
  apply (H A collection_ABC 0%nat); [reflexivity|].
  vm_compute. congruence.
Defined.

(** X10: [lowerToBottom] of a member that is not at index 0 takes out its
    first slot and puts it in front: the others keep their order, the data
    source is first, and the one "moved" event, raised last, carries the
    data source, 0 and the old index.  A second [lowerToBottom] of it
    changes nothing, whatever the array holds. *)
Theorem lowerToBottom_moves_to_front d s (k : nat) :
  Array_indexOf (_dataSources s) (Some d) = Z.of_nat (S k) ->
  exists s',
    lowerToBottom (Some d) s = (Normal VUndefined, s')
    /\ _dataSources s' = d :: delete (S k) (_dataSources s)
    /\ list.last (trace s')
       = Some (raiseEvent dataSourceMoved
                 [VRef d; VNum 0; VNum (Z.of_nat (S k))],
               _dataSources s')
    /\ lowerToBottom (Some d) s' = (Normal VUndefined, s').
Proof.
  intros Hk. eexists. rewrite (lowerToBottom_inner d s k Hk).
  split; [done|]. split; [done|].
  split; [cbn [logged trace]; by rewrite last_snoc|].
  apply lowerToBottom_bottom.
  cbn [logged after_pass with_dataSources _dataSources Array_indexOf
       indexOf_from].
  by rewrite decide_True.
Qed.

Lemma lowerToBottom_moves_to_front_witness :
  exists s',
    lowerToBottom (Some C) collection_ABC = (Normal VUndefined, s')
    /\ _dataSources s' = C :: delete 2%nat [A; B; C]
    /\ list.last (trace s')
       = Some (raiseEvent dataSourceMoved [VRef C; VNum 0; VNum 2],
               _dataSources s')
    /\ lowerToBottom (Some C) s' = (Normal VUndefined, s').
Proof.
  apply (lowerToBottom_moves_to_front C collection_ABC 1%nat). reflexivity.
Defined.

(** X11: [lower] of a member that is not at index 0 exchanges it with the
    element one index below and leaves every other slot as it was; after
    the pass it raises one "moved" event carrying the data source, the new
    index and the old one. *)
Theorem lower_swaps_with_predecessor d s (k : nat) :
  Array_indexOf (_dataSources s) (Some d) = Z.of_nat (S k) ->
  exists e s',
    _dataSources s !! k = Some e
    /\ lower (Some d) s = (Normal VUndefined, s')
    /\ _dataSources s' !! k = Some d
    /\ _dataSources s' !! S k = Some e
    /\ (forall n : nat, n ≠ k -> n ≠ S k ->
          _dataSources s' !! n = _dataSources s !! n)
    /\ trace s' =
       trace s
       ++ pass_trace (_dataSources s') (objects s)
       ++ [(raiseEvent dataSourceMoved
              [VRef d; VNum (Z.of_nat k); VNum (Z.of_nat (S k))],
            _dataSources s')].
Proof.
  intros Hk. pose proof (Array_indexOf_lookup _ _ _ Hk) as Hl.
  destruct (lookup_lt_is_Some_2 (_dataSources s) k) as [e He].
  { apply lookup_lt_Some in Hl. lia. }
  exists e. eexists. split; [done|].
  rewrite (lower_inner d e s k Hk He). split; [done|].
  cbn [logged after_pass with_dataSources _dataSources trace].
  destruct (swap_lookups (_dataSources s) (S k) k d e) as (H1 & H2 & H3);
    [lia|done|done|].
  split; [done|]. split; [done|]. split; [intros n ? ?; by apply H3|].
  rewrite <- app_assoc.
  by replace (Z.of_nat (S k) - 1) with (Z.of_nat k) by lia.
Qed.

Lemma lower_swaps_with_predecessor_witness :
  exists e s',
    [A; B; C] !! 1%nat = Some e
    /\ lower (Some C) collection_ABC = (Normal VUndefined, s')
    /\ _dataSources s' !! 1%nat = Some C
    /\ _dataSources s' !! 2%nat = Some e
    /\ (forall n : nat, n ≠ 1%nat -> n ≠ 2%nat ->
          _dataSources s' !! n = [A; B; C] !! n)
    /\ trace s' =
       trace collection_ABC
       ++ pass_trace (_dataSources s') (objects collection_ABC)
       ++ [(raiseEvent dataSourceMoved [VRef C; VNum 1; VNum 2],
            _dataSources s')].
Proof.
  apply (lower_swaps_with_predecessor C collection_ABC 1%nat). reflexivity.
Defined.

(** X12: when the array holds no data source twice, [raise] followed by
    [lower] of a member that is not last, and [lower] followed by [raise]
    of one that is not first, give back the array as it was. *)
Theorem raise_and_lower_undo_each_other d s (k : nat) :
  NoDup (_dataSources s) ->
  (Array_indexOf (_dataSources s) (Some d) = Z.of_nat k ->
   Z.of_nat k < length_of (_dataSources s) - 1 ->
   exists s1 s2,
     raise (Some d) s = (Normal VUndefined, s1)
     /\ _dataSources s1 ≠ _dataSources s
     /\ lower (Some d) s1 = (Normal VUndefined, s2)
     /\ _dataSources s2 = _dataSources s)
  /\ (Array_indexOf (_dataSources s) (Some d) = Z.of_nat (S k) ->
      exists s1 s2,
        lower (Some d) s = (Normal VUndefined, s1)
        /\ _dataSources s1 ≠ _dataSources s
        /\ raise (Some d) s1 = (Normal VUndefined, s2)
        /\ _dataSources s2 = _dataSources s).
Proof.
  intros Hnd. split.
  - intros Hk Hlt. pose proof (Array_indexOf_lookup _ _ _ Hk) as Hl.
    destruct (lookup_lt_is_Some_2 (_dataSources s) (S k)) as [e He].
    { unfold length_of in Hlt. lia. }
    destruct (swap_lookups (_dataSources s) k (S k) d e) as (H1 & H2 & _);
      [lia|done|done|].
    eexists. eexists. split; [apply (raise_inner d e s k Hk He)|].
    split.
    { cbn [logged after_pass with_dataSources _dataSources]. intros Heq.
      rewrite Heq in H2. rewrite Hl in H2. injection H2 as ->.
      pose proof (NoDup_lookup _ _ _ _ Hnd Hl He). lia. }
    split.
    { apply (lower_inner d e _ k).
      - cbn [logged after_pass with_dataSources _dataSources].
        apply Array_indexOf_NoDup; [|done]. by rewrite swap_up_perm.
      - done. }
    cbn [logged after_pass with_dataSources _dataSources].
    by apply swap_back; [lia| |].
  - intros Hk. pose proof (Array_indexOf_lookup _ _ _ Hk) as Hl.
    destruct (lookup_lt_is_Some_2 (_dataSources s) k) as [e He].
    { apply lookup_lt_Some in Hl. lia. }
    destruct (swap_lookups (_dataSources s) (S k) k d e) as (H1 & H2 & _);
      [lia|done|done|].
    eexists. eexists. split; [apply (lower_inner d e s k Hk He)|].
    split.
    { cbn [logged after_pass with_dataSources _dataSources]. intros Heq.
      rewrite Heq in H2. rewrite Hl in H2. injection H2 as ->.
      pose proof (NoDup_lookup _ _ _ _ Hnd Hl He). lia. }
    split.
    { apply (raise_inner d e _ k).
      - cbn [logged after_pass with_dataSources _dataSources].
        apply Array_indexOf_NoDup; [|done]. by rewrite swap_down_perm.
      - done. }
    cbn [logged after_pass with_dataSources _dataSources].
    by apply swap_back; [lia| |].
Qed.

Lemma raise_and_lower_undo_each_other_witness :
  (exists s1 s2,
     raise (Some B) collection_ABC = (Normal VUndefined, s1)
     /\ _dataSources s1 ≠ [A; B; C]
     /\ lower (Some B) s1 = (Normal VUndefined, s2)
     /\ _dataSources s2 = [A; B; C])
  /\ (exists s1 s2,
        lower (Some C) collection_ABC = (Normal VUndefined, s1)
        /\ _dataSources s1 ≠ [A; B; C]
        /\ raise (Some C) s1 = (Normal VUndefined, s2)
        /\ _dataSources s2 = [A; B; C]).
Proof.
  assert (NoDup (_dataSources collection_ABC)) as Hnd
    by (change (NoDup [A; B; C]); compute_done).
  split.
  - destruct (raise_and_lower_undo_each_other B collection_ABC 1%nat Hnd)
      as [H _].
    apply H; [reflexivity|vm_compute; reflexivity].
  - destruct (raise_and_lower_undo_each_other C collection_ABC 1%nat Hnd)
      as [_ H].
    apply H. reflexivity.
Defined.

(** X13: the four calls that move a data source only rearrange the
    array: whatever they return or throw, the array afterwards is a
    permutation of the array before, so nothing is added or dropped and
    the length is the same. *)
Theorem reorder_keeps_members dataSource s :
  _dataSources (raise dataSource s).2 ≡ₚ _dataSources s
  /\ _dataSources (lower dataSource s).2 ≡ₚ _dataSources s
  /\ _dataSources (raiseToTop dataSource s).2 ≡ₚ _dataSources s
  /\ _dataSources (lowerToBottom dataSource s).2 ≡ₚ _dataSources s.
Proof.
  assert (forall m s,
            is_reorder m = true ->
            _dataSources (call m s).2 ≡ₚ _dataSources s) as H.
  { intros m s'.
    apply (call_elim
             (fun m s rs =>
                is_reorder m = true -> _dataSources rs.2 ≡ₚ _dataSources s));
      try done; clear; simpl.
    - intros d e s k Hk He _.
      apply swap_up_perm; [by apply Array_indexOf_lookup|done].
    - intros d e s k Hk He _.
      apply swap_down_perm; [by apply Array_indexOf_lookup|done].
    - intros d s k Hk _ _. rewrite Permutation_app_comm. simpl. symmetry.
      by apply delete_Permutation, Array_indexOf_lookup.
    - intros d s k Hk _. symmetry.
      by apply delete_Permutation, Array_indexOf_lookup. }
  split; [apply (H (m_raise dataSource)); done|].
  split; [apply (H (m_lower dataSource)); done|].
  split; [apply (H (m_raiseToTop dataSource)); done|].
  apply (H (m_lowerToBottom dataSource)); done.
Qed.

(** X14: the four calls that move a data source reject [undefined] with
    "dataSource is required." and, [raiseToTop] and [lowerToBottom] as
    well, a data source that is not in the collection with "dataSource is
    not in this collection."; the state is as it was. *)
Theorem reorder_rejects_undefined_and_strangers s :
  raise None s = (Throw (DeveloperError "dataSource is required."), s)
  /\ lower None s = (Throw (DeveloperError "dataSource is required."), s)
  /\ raiseToTop None s
     = (Throw (DeveloperError "dataSource is required."), s)
  /\ lowerToBottom None s
     = (Throw (DeveloperError "dataSource is required."), s)
  /\ (forall d, d ∉ _dataSources s ->
        raiseToTop (Some d) s
        = (Throw (DeveloperError "dataSource is not in this collection."), s)
        /\ lowerToBottom (Some d) s
           = (Throw (DeveloperError "dataSource is not in this collection."),
              s)).
Proof.
  do 4 (split; [done|]). intros d Hd.
  by destruct (reorder_absent d s Hd) as (_ & _ & ? & ?).
Qed.

Lemma reorder_rejects_undefined_and_strangers_witness :
  raiseToTop (Some 7%nat) collection_ABC
  = (Throw (DeveloperError "dataSource is not in this collection."),
     collection_ABC)
  /\ lowerToBottom (Some 7%nat) collection_ABC
     = (Throw (DeveloperError "dataSource is not in this collection."),
        collection_ABC).
Proof.
  destruct (reorder_rejects_undefined_and_strangers collection_ABC)
    as (_ & _ & _ & _ & H).
  apply H. change (7%nat ∉ [A; B; C]). compute_done.
Defined.

(** ** What no call does *)

Lemma maybe_destroyed_objects b d s :
  objects (maybe_destroyed b d s) = objects s.
Proof. by destruct b. Qed.

Lemma maybe_destroyed_dataSources b d s :
  _dataSources (maybe_destroyed b d s) = _dataSources s.
Proof. by destruct b. Qed.

(** X15: no call of a method writes the [show] flag of a data source:
    whatever is called, with whatever outcome, every object's [show] is
    afterwards what it was. *)
Theorem show_never_written m s d :
  show (objects (call m s).2 d) = show (objects s d).
Proof.
  revert d.
  apply (call_elim
           (fun m s rs => forall d, show (objects rs.2 d) = show (objects s d)));
    try done; clear; intros; cbn [snd];
    rewrite ?maybe_destroyed_objects;
    cbn [logged after_pass with_dataSources objects];
    unfold pass_objects; by rewrite walk_show.
Qed.

(** X16: a call writes the two shadow fields only on data sources that
    are in the array when it returns: the fields of every other object,
    the data source just removed among them, are afterwards what they
    were. *)
Theorem objects_outside_array_untouched m s d :
  d ∉ _dataSources (call m s).2 ->
  objects (call m s).2 d = objects s d.
Proof.
  revert d.
  apply (call_elim
           (fun m s rs =>
              forall d, d ∉ _dataSources rs.2 -> objects rs.2 d = objects s d));
    try done; clear; intros *; cbn [snd];
    rewrite ?maybe_destroyed_objects, ?maybe_destroyed_dataSources;
    cbn [logged after_pass with_dataSources objects _dataSources];
    intros; unfold pass_objects; by rewrite walk_notin.
Qed.

Lemma objects_outside_array_untouched_witness :
  objects (call (m_remove (Some B) None) collection_ABC_B_shown).2 B
  = objects collection_ABC_B_shown B.
Proof.
  apply (objects_outside_array_untouched
           (m_remove (Some B) None) collection_ABC_B_shown B).
  change (B ∉ [A; C]). compute_done.
Defined.

(** ** Calls of [destroy()] on data sources *)

Lemma destroy_calls_app t1 t2 :
  destroy_calls (t1 ++ t2) = destroy_calls t1 ++ destroy_calls t2.
Proof. apply omap_app. Qed.

Lemma destroy_calls_pass arr objs : destroy_calls (pass_trace arr objs) = [].
Proof.
  unfold pass_trace. induction (pass_shown arr objs) as [|x l IH]; [done|].
  apply IH.
Qed.

Lemma destroy_calls_each (b : bool) (l : list handle) :
  forall g : nat -> handle -> list (Effect * list handle),
    (forall k d, destroy_calls (g k d) = if b then [d] else []) ->
    destroy_calls (mjoin (imap g l)) = if b then l else [].
Proof.
  induction l as [|x l IH]; intros g Hg; [by destruct b|].
  rewrite imap_cons.
  change (destroy_calls (g 0%nat x ++ mjoin (imap (g ∘ S) l))
          = if b then x :: l else []).
  rewrite destroy_calls_app, Hg, (IH (g ∘ S)) by (intros; apply Hg).
  by destruct b.
Qed.

Lemma destroy_calls_removeAll b arr :
  destroy_calls (removeAll_trace b arr) = if b then arr else [].
Proof.
  unfold removeAll_trace. apply destroy_calls_each.
  intros k d. by destruct b.
Qed.

Lemma new_entries_app s t (s' : State) :
  trace s' = trace s ++ t -> new_entries s s' = t.
Proof. intros H. unfold new_entries. by rewrite H, drop_app_length. Qed.

(** X17: [removeAll] calls [destroy()] once per slot, in array order, when
    [destroy] is true or omitted, hence twice on a data source held in two
    slots, and never when it is [false]; the [destroy] of the collection
    does the same as [removeAll(true)]. *)
Theorem removeAll_destroys_each_slot flag s :
  destroy_calls (new_entries s (removeAll flag s).2)
  = (if defaultValue flag true then _dataSources s else [])
  /\ destroy_calls (new_entries s (destroy s).2) = _dataSources s.
Proof.
  split.
  - rewrite removeAll_spec. cbn [snd].
    rewrite (new_entries_app s
               (removeAll_trace (defaultValue flag true) (_dataSources s)))
      by done.
    apply destroy_calls_removeAll.
  - unfold destroy, bind. rewrite removeAll_spec. cbn [snd fst].
    rewrite (new_entries_app s (removeAll_trace true (_dataSources s)))
      by done.
    apply destroy_calls_removeAll.
Qed.

(** X18: a call of a method calls [destroy()] only on data sources that
    are in the array when the call is made, and only in [remove] of that
    data source, [removeAll] and [destroy], each with [destroy] not
    [false]. *)
Theorem destroys_only_what_it_holds m s x :
  x ∈ destroy_calls (new_entries s (call m s).2) ->
  x ∈ _dataSources s
  /\ ((exists b, m = m_remove (Some x) b /\ defaultValue b true = true)
      \/ (exists b, m = m_removeAll b /\ defaultValue b true = true)
      \/ m = m_destroy).
Proof.
  revert x.
  apply (call_elim
           (fun m s rs =>
              forall x,
                x ∈ destroy_calls (new_entries s rs.2) ->
                x ∈ _dataSources s
                /\ ((exists b, m = m_remove (Some x) b
                               /\ defaultValue b true = true)
                    \/ (exists b, m = m_removeAll b
                                  /\ defaultValue b true = true)
                    \/ m = m_destroy))); clear.
  - intros m s r _ x. cbn [snd]. rewrite new_entries_same.
    by intros ?%elem_of_nil.
  - intros d index s k _ _ x. cbn [snd].
    rewrite (new_entries_app _ (pass_trace _ (objects s) ++ [_]))
      by (simpl; by rewrite <- app_assoc).
    rewrite destroy_calls_app, destroy_calls_pass.
    by intros ?%elem_of_nil.
  - intros d b s k Hk x. cbn [snd].
    destruct (defaultValue b true) eqn:Hb; cbn [maybe_destroyed].
    + rewrite (new_entries_app _ (pass_trace _ (objects s) ++ [_; _]))
        by (simpl; by rewrite <- !app_assoc).
      rewrite destroy_calls_app, destroy_calls_pass.
      intros ->%list_elem_of_singleton.
      split; [|left; by exists b].
      apply list_elem_of_lookup. exists k. by apply Array_indexOf_lookup.
    + rewrite (new_entries_app _ (pass_trace _ (objects s) ++ [_]))
        by (simpl; by rewrite <- app_assoc).
      rewrite destroy_calls_app, destroy_calls_pass.
      by intros ?%elem_of_nil.
  - intros b s x. cbn [snd].
    rewrite (new_entries_app s
               (removeAll_trace (defaultValue b true) (_dataSources s)))
      by done.
    rewrite destroy_calls_removeAll.
    destruct (defaultValue b true) eqn:Hb; [|by intros ?%elem_of_nil].
    intros Hx. split; [done|]. right; left. by exists b.
  - intros d e s k _ _ x. cbn [snd].
    rewrite (new_entries_app _ (pass_trace _ (objects s) ++ [_]))
      by (simpl; by rewrite <- app_assoc).
    rewrite destroy_calls_app, destroy_calls_pass.
    by intros ?%elem_of_nil.
  - intros d e s k _ _ x. cbn [snd].
    rewrite (new_entries_app _ (pass_trace _ (objects s) ++ [_]))
      by (simpl; by rewrite <- app_assoc).
    rewrite destroy_calls_app, destroy_calls_pass.
    by intros ?%elem_of_nil.
  - intros d s k _ _ x. cbn [snd].
    rewrite (new_entries_app _ (pass_trace _ (objects s) ++ [_]))
      by (simpl; by rewrite <- app_assoc).
    rewrite destroy_calls_app, destroy_calls_pass.
    by intros ?%elem_of_nil.
  - intros d s k _ x. cbn [snd].
    rewrite (new_entries_app _ (pass_trace _ (objects s) ++ [_]))
      by (simpl; by rewrite <- app_assoc).
    rewrite destroy_calls_app, destroy_calls_pass.
    by intros ?%elem_of_nil.
  - intros s x. cbn [snd].
    rewrite (new_entries_app s (removeAll_trace true (_dataSources s)))
      by done.
    rewrite destroy_calls_removeAll.
    intros Hx. split; [done|]. by right; right.
  - intros s x. cbn [snd].
    rewrite (new_entries_app _ (pass_trace (_dataSources s) (objects s)))
      by done.
    rewrite destroy_calls_pass. by intros ?%elem_of_nil.
Qed.

Lemma destroys_only_what_it_holds_witness :
  B ∈ [A; B; C]
  /\ ((exists b, m_remove (Some B) None = m_remove (Some B) b
                 /\ defaultValue b true = true)
      \/ (exists b, m_remove (Some B) None = m_removeAll b
                    /\ defaultValue b true = true)
      \/ m_remove (Some B) None = m_destroy).
Proof.
  apply (destroys_only_what_it_holds (m_remove (Some B) None) collection_ABC B).
  vm_compute. apply list_elem_of_here.
Defined.

(** ** The shadow of [show] *)

Lemma pass_settles arr objs d :
  d ∈ arr ->
  _show (pass_objects arr objs d) = Some (show (pass_objects arr objs d)).
Proof.
  intros Hd. unfold pass_objects. by rewrite walk_shadow, walk_show.
Qed.

Lemma settled_by_pass s' arr objs :
  _dataSources s' = arr -> objects s' = pass_objects arr objs -> settled s'.
Proof.
  intros Harr Hobjs d Hd. rewrite Harr in Hd. rewrite Hobjs.
  by apply pass_settles.
Qed.

Lemma settled_empty s' : _dataSources s' = [] -> settled s'.
Proof. intros Hnil d Hd. rewrite Hnil in Hd. by apply elem_of_nil in Hd. Qed.

(** X19: a call that changes the array leaves every member's shadow
    [_show] equal to its [show]; and a call made when that already holds
    keeps it so.  Only the owner's writing of [show] puts a member's shadow
    out of date, and the next call that changes the array brings it up to
    date. *)
Theorem calls_settle_shadows m s :
  (_dataSources (call m s).2 ≠ _dataSources s -> settled (call m s).2)
  /\ (settled s -> settled (call m s).2).
Proof.
  assert (forall P Q : Prop, Q -> (P -> Q) /\ (settled s -> Q)) as Hboth
    by tauto.
  revert Hboth.
  apply (call_elim
           (fun m s rs =>
              (forall P Q : Prop, Q -> (P -> Q) /\ (settled s -> Q)) ->
              (_dataSources rs.2 ≠ _dataSources s -> settled rs.2)
              /\ (settled s -> settled rs.2))); clear.
  - intros m s r _ _. by split.
  - intros d index s k _ _ Hboth. apply Hboth.
    by eapply settled_by_pass.
  - intros d b s k _ Hboth. apply Hboth. cbn [snd].
    destruct (defaultValue b true); by eapply settled_by_pass.
  - intros b s Hboth. apply Hboth. by apply settled_empty.
  - intros d e s k _ _ Hboth. apply Hboth. by eapply settled_by_pass.
  - intros d e s k _ _ Hboth. apply Hboth. by eapply settled_by_pass.
  - intros d s k _ _ Hboth. apply Hboth. by eapply settled_by_pass.
  - intros d s k _ Hboth. apply Hboth. by eapply settled_by_pass.
  - intros s Hboth. apply Hboth. by apply settled_empty.
  - intros s Hboth. apply Hboth. by eapply settled_by_pass.
Qed.

Lemma calls_settle_shadows_witness :
  settled (call (m_raise (Some A)) collection_ABC_B_shown).2
  /\ settled (call (m_indexOf (Some A)) collection_ABC).2.
Proof.
  split.
  - destruct (calls_settle_shadows (m_raise (Some A)) collection_ABC_B_shown)
      as [Hchanged _].
    apply Hchanged. intros Heq. vm_compute in Heq. discriminate Heq.
  - destruct (calls_settle_shadows (m_indexOf (Some A)) collection_ABC)
      as [_ Hkept].
    apply Hkept. intros d Hd. change (d ∈ [A; B; C]) in Hd.
    repeat (apply elem_of_cons in Hd as [->|Hd]; [reflexivity|]).
    by apply elem_of_nil in Hd.
Defined.

Lemma walk_index_indep ds : forall i objs1 acc1 objs2 acc2 h,
  h ∈ ds ->
  _dataSourceIndex ((walk ds i objs1 acc1).1 h)
  = _dataSourceIndex ((walk ds i objs2 acc2).1 h).
Proof.
  induction ds as [|d ds IH]; intros i objs1 acc1 objs2 acc2 h Hh.
  - by apply elem_of_nil in Hh.
  - rewrite !walk_step. destruct (decide (h ∈ ds)) as [Hin|Hnin].
    + by apply IH.
    + apply elem_of_cons in Hh as [->|Hh]; [|done].
      rewrite !walk_notin by done.
      by rewrite !fn_lookup_insert, !visit_index.
Qed.

Lemma DataSource_eq (o1 o2 : DataSource) :
  show o1 = show o2 -> _show o1 = _show o2 ->
  _dataSourceIndex o1 = _dataSourceIndex o2 -> o1 = o2.
Proof. destruct o1, o2. simpl. by intros -> -> ->. Qed.

Lemma pass_shown_settled arr objs :
  (forall d, d ∈ arr -> _show (objs d) = Some (show (objs d))) ->
  pass_shown arr objs = [].
Proof.
  intros Hs. rewrite pass_shown_spec.
  assert (forall l : list handle,
            (forall d, d ∈ l -> d ∈ arr) ->
            filter (fun d => Is_true (pending objs d)) l = []) as H.
  { induction l as [|x l IH]; intros Hl; [done|].
    rewrite filter_cons, decide_False.
    - apply IH. intros d Hd. apply Hl. by apply list_elem_of_further.
    - unfold pending. rewrite Hs by (apply Hl; apply list_elem_of_here).
      rewrite Bool.eqb_reflx. by intros []. }
  apply H. intros d. apply firsts_elem_of.
Qed.

(** X20: the pass is idempotent: a second pass right after a pass raises
    no event and leaves every object as the first pass left it. *)
Theorem second_pass_does_nothing s :
  exists s1 s2,
    _update s = (Normal tt, s1)
    /\ _update s1 = (Normal tt, s2)
    /\ _dataSources s2 = _dataSources s1
    /\ trace s2 = trace s1
    /\ forall d, objects s2 d = objects s1 d.
Proof.
  eexists _, _. rewrite !_update_spec.
  split; [done|]. split; [done|]. split; [done|].
  cbn [after_pass _dataSources objects trace]. split.
  - unfold pass_trace at 2.
    rewrite pass_shown_settled by (intros d; apply pass_settles).
    by rewrite app_nil_r.
  - intros d. destruct (decide (d ∈ _dataSources s)) as [Hd|Hd].
    + apply DataSource_eq.
      * unfold pass_objects. by rewrite !walk_show.
      * rewrite !pass_settles by done. unfold pass_objects.
        by rewrite !walk_show.
      * unfold pass_objects. by apply walk_index_indep.
    + unfold pass_objects. by rewrite !walk_notin.
Qed.

(** X21: [add] raises a shown-or-hidden event for the data source it adds
    exactly when that data source arrives with a shadow [_show] that is
    defined and differs from its [show]: a data source never seen by a
    pass raises none, one that was a member before and whose [show] was
    changed since does. *)
Theorem add_reports_stale_shadow d index s :
  valid_index index s ->
  exists s',
    add (Some d) index s = (Normal VUndefined, s')
    /\ ((exists i b seen,
           (raiseEvent dataSourceShownOrHidden [VRef d; i; b], seen)
           ∈ new_entries s s')
        <-> exists b, _show (objects s d) = Some b /\ b ≠ show (objects s d)).
Proof.
  intros Hv. destruct (add_state d index s Hv) as (k & Hk & Hle & ->).
  eexists. split; [done|]. rewrite <- pending_spec.
  set (arr' := take k (_dataSources s) ++ d :: drop k (_dataSources s)).
  rewrite (new_entries_app s
             (pass_trace arr' (objects s)
              ++ [(raiseEvent dataSourceAdded [VRef d; VNum (Z.of_nat k)],
                   arr')]))
    by (simpl; by rewrite <- app_assoc).
  assert (d ∈ arr') as Hd
    by (apply elem_of_app; right; apply list_elem_of_here).
  split.
  - intros (i & b & seen & [Hin|Hin]%elem_of_app).
    + unfold pass_trace in Hin.
      apply list_elem_of_fmap in Hin as (x & [= <- _ _ _] & Hx).
      rewrite pass_shown_spec in Hx.
      by apply list_elem_of_filter in Hx as [Hx _].
    + apply list_elem_of_singleton in Hin. discriminate Hin.
  - intros Hp.
    destruct (pass_reports_pending arr' (objects s) d Hd Hp)
      as (j & _ & _ & Hin).
    eexists _, _, _. apply elem_of_app. left. exact Hin.
Qed.

Lemma add_reports_stale_shadow_witness :
  exists s',
    add (Some 7%nat) None collection_ABC_B_shown = (Normal VUndefined, s')
    /\ ((exists i b seen,
           (raiseEvent dataSourceShownOrHidden [VRef 7%nat; i; b], seen)
           ∈ new_entries collection_ABC_B_shown s')
        <-> exists b,
              _show (objects collection_ABC_B_shown 7%nat) = Some b
              /\ b ≠ show (objects collection_ABC_B_shown 7%nat)).
Proof.
  apply (add_reports_stale_shadow 7%nat None collection_ABC_B_shown).
  exact I.
Defined.

(** ** One step or all the way *)

Lemma last_two (l : list handle) (k : nat) d e :
  l !! k = Some d -> l !! S k = Some e -> S (S k) = length l ->
  l = take k l ++ [d; e].
Proof.
  intros Hd He Hlen.
  rewrite <- (take_drop_middle l k d Hd) at 1. f_equal. f_equal.
  rewrite <- (take_drop_middle l (S k) e He).
  rewrite drop_app_length' by (rewrite length_take; lia).
  by rewrite drop_ge by lia.
Qed.

Lemma swap_last_two (l1 : list handle) d e :
  <[S (length l1) := d]> (<[length l1 := e]> (l1 ++ [d; e]))
  = delete (length l1) (l1 ++ [d; e]) ++ [d].
Proof. induction l1 as [|x l1 IH]; simpl; [done|]. by rewrite IH. Qed.

(** X22: where one step is all the way, the two calls agree, in result and
    state: [raise] of the member at the last index but one does what
    [raiseToTop] does, and [lower] of the member at index 1 does what
    [lowerToBottom] does. *)
Theorem one_step_is_all_the_way d s :
  (Array_indexOf (_dataSources s) (Some d) = length_of (_dataSources s) - 2 ->
   d ∈ _dataSources s ->
   raise (Some d) s = raiseToTop (Some d) s)
  /\ (Array_indexOf (_dataSources s) (Some d) = 1 ->
      lower (Some d) s = lowerToBottom (Some d) s).
Proof.
  split.
  - intros Hidx Hd. destruct (Array_indexOf_member _ _ Hd) as (k & Hk & Hl & _).
    assert (S (S k) = length (_dataSources s)) as Hlen
      by (unfold length_of in Hidx; lia).
    destruct (lookup_lt_is_Some_2 (_dataSources s) (S k)) as [e He]; [lia|].
    rewrite (raise_inner d e s k Hk He).
    rewrite (raiseToTop_inner d s k Hk) by (unfold length_of; lia).
    replace (length_of (_dataSources s) - 1) with (Z.of_nat k + 1)
      by (unfold length_of; lia).
    assert (forall l1 : list handle,
              length l1 = k -> _dataSources s = l1 ++ [d; e] ->
              <[S k := d]> (<[k := e]> (_dataSources s))
              = delete k (_dataSources s) ++ [d]) as Hswap.
    { intros l1 <- ->. apply swap_last_two. }
    rewrite (Hswap (take k (_dataSources s)));
      [done|rewrite length_take; lia|by apply last_two].
  - intros Hidx.
    pose proof (Array_indexOf_lookup _ _ 1%nat Hidx) as Hl.
    destruct (lookup_lt_is_Some_2 (_dataSources s) 0%nat) as [e He].
    { apply lookup_lt_Some in Hl. lia. }
    rewrite (lower_inner d e s 0%nat Hidx He).
    rewrite (lowerToBottom_inner d s 0%nat Hidx).
    replace (Z.of_nat 1 - 1) with 0 by lia. do 4 f_equal.
    destruct (_dataSources s) as [|x [|y l]]; [done|done|].
    simpl in *. by injection He as ->; injection Hl as ->.
Qed.

Lemma one_step_is_all_the_way_witness :
  raise (Some B) collection_ABC = raiseToTop (Some B) collection_ABC
  /\ lower (Some B) collection_ABC = lowerToBottom (Some B) collection_ABC.
Proof.
  destruct (one_step_is_all_the_way B collection_ABC) as [Hup Hdown].
  split.
  - apply Hup; [reflexivity|]. change (B ∈ [A; B; C]). compute_done.
  - apply Hdown. reflexivity.
Defined.
